(** * Airport API: a shallow embedding of the view layer

    The development follows [airport/views.py] and [chat_msg/views.py].
    Tables of the relational store are finite maps from primary keys to
    rows, a queryset is a finite map as well (a set of rows, each under its
    primary key), and a many-to-many relation such as the [user_list] of a
    chat is a finite set of keys.  A view method is a function from the
    request and the store to a response and the store afterwards.

    Primary keys are integers: a path parameter is taken after its
    conversion to a number.  Query-string values are ASCII strings.
    Pagination and the ordering of rows are not part of the model. *)

From stdpp Require Import gmap strings list fin_maps pretty.
From Stdlib Require Import ZArith Ascii String.

Open Scope Z_scope.

(** ** The framework: principals, responses, permissions *)

Module Rest.

(** [request.user]: Django's anonymous user or a stored account. *)
Record User := { id : Z; is_staff : bool }.

Inductive Principal :=
| AnonymousUser
| Account (u : User).

Definition is_authenticated (p : Principal) : bool :=
  match p with AnonymousUser => false | Account _ => true end.

Definition staff (p : Principal) : bool :=
  match p with AnonymousUser => false | Account u => is_staff u end.

Inductive Method := GET | HEAD | OPTIONS | POST | PUT | PATCH | DELETE.

Definition SAFE_METHODS (m : Method) : bool :=
  match m with GET | HEAD | OPTIONS => true | _ => false end.

(** The actions of a [ModelViewSet] and the verb each is routed from. *)
Inductive Action :=
| list_ | retrieve | create | update | partial_update | destroy.

Definition method_of (a : Action) : Method :=
  match a with
  | list_ | retrieve => GET
  | create => POST
  | update => PUT
  | partial_update => PATCH
  | destroy => DELETE
  end.

Inductive Status :=
| HTTP_200_OK
| HTTP_201_CREATED
| HTTP_204_NO_CONTENT
| HTTP_400_BAD_REQUEST
| HTTP_401_UNAUTHORIZED
| HTTP_403_FORBIDDEN
| HTTP_404_NOT_FOUND
| HTTP_500_INTERNAL_SERVER_ERROR.

(** Exceptions a view can raise.  The first four are turned into a
    response by the framework's exception handler; [ValueError] and
    [TypeError] are not API exceptions and leave the view unhandled. *)
Inductive Exn :=
| NotAuthenticated
| PermissionDenied
| Http404
| ValidationError (field : string)
| ValueError
| TypeError.

Inductive Body (A : Type) :=
| Data (a : A)
| Detail (msg : string)
| Errors (field : string).
Arguments Data {A} a.
Arguments Detail {A} msg.
Arguments Errors {A} field.

Inductive Response (A : Type) :=
| Reply (s : Status) (b : Body A)
| Raise (e : Exn).
Arguments Reply {A} s b.
Arguments Raise {A} e.

Definition exception_handler (e : Exn) : Status :=
  match e with
  | NotAuthenticated => HTTP_401_UNAUTHORIZED
  | PermissionDenied => HTTP_403_FORBIDDEN
  | Http404 => HTTP_404_NOT_FOUND
  | ValidationError _ => HTTP_400_BAD_REQUEST
  | ValueError | TypeError => HTTP_500_INTERNAL_SERVER_ERROR
  end.

Definition status_code {A} (r : Response A) : Status :=
  match r with
  | Reply s _ => s
  | Raise e => exception_handler e
  end.

Definition is_success (s : Status) : bool :=
  match s with
  | HTTP_200_OK | HTTP_201_CREATED | HTTP_204_NO_CONTENT => true
  | _ => false
  end.

(** A validation error is a client error carrying the offending field,
    whether raised or returned as [serializer.errors]. *)
Definition is_validation_error {A} (r : Response A) : bool :=
  match r with
  | Raise (ValidationError _) => true
  | Reply HTTP_400_BAD_REQUEST (Errors _) => true
  | _ => false
  end.

(** Permission classes.  [IsAuthenticated] and [IsAdminUser] are the
    framework's. *)
Inductive Permission :=
| IsAuthenticated
| IsAdminUser
| IsAdminOrIfAuthenticatedReadOnly
| IsAdminOrReadOnly.

(** Modelled from the spec: [airport/permissions.py] is missing.  The
    spec gives Airplane, which carries [IsAdminOrIfAuthenticatedReadOnly],
    the policy "authenticated users may read; only admins write", and
    Airport, Route and Flight, which carry [IsAdminOrReadOnly], the policy
    "unauthenticated or regular users may read; only staff-flagged users
    may create/update/delete". *)
Definition has_permission (p : Permission) (m : Method) (who : Principal)
  : bool :=
  match p with
  | IsAuthenticated => is_authenticated who
  | IsAdminUser => staff who
  | IsAdminOrIfAuthenticatedReadOnly =>
      (SAFE_METHODS m && is_authenticated who) || staff who
  | IsAdminOrReadOnly => SAFE_METHODS m || staff who
  end.

Definition check_permissions (ps : list Permission) (m : Method)
  (who : Principal) : bool :=
  forallb (fun p => has_permission p m who) ps.

(** [APIView.permission_denied]: an unauthenticated request is answered
    with [NotAuthenticated], an authenticated one with
    [PermissionDenied].  [NotAuthenticated] is given its own status 401
    below; under an authentication scheme without a challenge header the
    framework sends 403 for it as well. *)
Definition permission_denied (who : Principal) : Exn :=
  if is_authenticated who then PermissionDenied else NotAuthenticated.

(** [APIView.initial] runs the permission checks before the handler; a
    refused request never reaches it and the store is left as it was. *)
Definition dispatch {S A} (ps : list Permission) (m : Method)
  (who : Principal) (handler : S → Response A * S) (db : S)
  : Response A * S :=
  if check_permissions ps m who then handler db
  else (Raise (permission_denied who), db).

Definition rejected {A} (r : Response A) : Prop :=
  r = Raise NotAuthenticated ∨ r = Raise PermissionDenied.

(** [get_object_or_404] over a queryset. *)
Definition get_object_or_404 {R} (qs : gmap Z R) (pk : Z) : Exn + R :=
  match qs !! pk with
  | Some r => inr r
  | None => inl Http404
  end.

(** The next value of an auto-increment key: above every key in use. *)
Definition next_pk {R} (t : gmap Z R) : Z :=
  1 + map_fold (fun k _ acc => Z.max k acc) 0 t.

End Rest.

(** ** Python's library functions used by the views *)

Module Py.

(** The error monad of a computation that may raise. *)
Definition raises (A : Type) : Type := Rest.Exn + A.

#[global] Instance raises_ret : MRet raises := λ A x, inr x.
#[global] Instance raises_bind : MBind raises := λ A B f m,
  match m with inl e => inl e | inr x => f x end.

Definition digit (c : ascii) : option Z :=
  let n := Z.of_nat (nat_of_ascii c) in
  if (48 <=? n) && (n <=? 57) then Some (n - 48) else None.

Definition is_digit (c : ascii) : bool :=
  match digit c with Some _ => true | None => false end.

(** The characters [int] strips around a number. *)
Definition is_space (c : ascii) : bool :=
  let n := Z.of_nat (nat_of_ascii c) in
  ((9 <=? n) && (n <=? 13)) || ((28 <=? n) && (n <=? 32)).

Fixpoint lstrip (cs : list ascii) : list ascii :=
  match cs with
  | c :: cs' => if is_space c then lstrip cs' else cs
  | [] => []
  end.

Definition strip (cs : list ascii) : list ascii :=
  reverse (lstrip (reverse (lstrip cs))).

(** Digits of a decimal literal; a single underscore may separate two
    digits.  [acc] is the value read so far, [sep] tells whether the
    previous character was an underscore. *)
Fixpoint digits_value (acc : Z) (sep : bool) (cs : list ascii)
  : option Z :=
  match cs with
  | [] => if sep then None else Some acc
  | c :: cs' =>
      match digit c with
      | Some d => digits_value (10 * acc + d) false cs'
      | None =>
          if bool_decide (c = "_"%char) && negb sep
          then digits_value acc true cs'
          else None
      end
  end.

Definition unsigned_value (cs : list ascii) : option Z :=
  match cs with
  | c :: _ => if is_digit c then digits_value 0 false cs else None
  | [] => None
  end.

(** [int(s)] for a string [s]; [None] stands for [ValueError]. *)
Definition int (s : string) : option Z :=
  match strip (list_ascii_of_string s) with
  | c :: cs =>
      if bool_decide (c = "-"%char) then Z.opp <$> unsigned_value cs
      else if bool_decide (c = "+"%char) then unsigned_value cs
      else unsigned_value (c :: cs)
  | [] => None
  end.

(** [s.split(sep)] for a one-character separator. *)
Fixpoint split_chars (sep : ascii) (cs : list ascii) : list (list ascii) :=
  match cs with
  | [] => [[]]
  | c :: cs' =>
      if bool_decide (c = sep) then [] :: split_chars sep cs'
      else match split_chars sep cs' with
           | w :: ws => (c :: w) :: ws
           | [] => [[c]]
           end
  end.

Definition split (sep : ascii) (s : string) : list string :=
  string_of_list_ascii <$> split_chars sep (list_ascii_of_string s).

(** [datetime.date] and [datetime.datetime] (naive). *)
Record Date := { year : Z; month : Z; day : Z }.

Record DateTime := {
  date : Date;
  hour : Z;
  minute : Z;
  second : Z
}.

#[global] Instance Date_eq_dec : EqDecision Date.
Proof. solve_decision. Defined.

Definition is_leap (y : Z) : bool :=
  ((y mod 4 =? 0) && negb (y mod 100 =? 0)) || (y mod 400 =? 0).

Definition days_in_month (y m : Z) : Z :=
  if m =? 2 then (if is_leap y then 29 else 28)
  else if (m =? 4) || (m =? 6) || (m =? 9) || (m =? 11) then 30
  else 31.

(** The constructor [date(y, m, d)], which raises [ValueError] outside
    the calendar. *)
Definition make_date (y m d : Z) : option Date :=
  if (1 <=? y) && (y <=? 9999) && (1 <=? m) && (m <=? 12)
     && (1 <=? d) && (d <=? days_in_month y m)
  then Some {| year := y; month := m; day := d |}
  else None.

(** The directive [%d] is the pattern [3[0-1]|[1-2]\d|0[1-9]|[1-9]| [1-9]]:
    the first alternative that matches a prefix is taken, and anything
    left over after it makes [strptime] raise. *)
Definition parse_day (cs : list ascii) : option Z :=
  let one_to_nine c :=
    match digit c with Some d => if 1 <=? d then Some d else None
                     | None => None end in
  let single := match cs with
                | [c] => one_to_nine c
                | [s; c] => if bool_decide (s = " "%char)
                            then one_to_nine c else None
                | _ => None
                end in
  match cs with
  | [c1; c2] =>
      match digit c1, digit c2 with
      | Some 3, Some d2 => if d2 <=? 1 then Some (30 + d2) else None
      | Some 1, Some d2 | Some 2, Some d2 =>
          Some (10 * (if bool_decide (c1 = "1"%char) then 1 else 2) + d2)
      | Some 0, Some d2 => if 1 <=? d2 then Some d2 else None
      | _, _ => single
      end
  | _ => single
  end.

(** The directive [%m] is [1[0-2]|0[1-9]|[1-9]], followed here by the
    literal [-] and the day. *)
Definition parse_month_day (cs : list ascii) : option (Z * Z) :=
  let dash c := bool_decide (c = "-"%char) in
  let two :=
    match cs with
    | c1 :: c2 :: c3 :: rest =>
        if dash c3 then
          match digit c1, digit c2 with
          | Some 1, Some d2 =>
              if d2 <=? 2 then pair (10 + d2) <$> parse_day rest else None
          | Some 0, Some d2 =>
              if 1 <=? d2 then pair d2 <$> parse_day rest else None
          | _, _ => None
          end
        else None
    | _ => None
    end in
  match cs with
  | c1 :: c2 :: rest =>
      if dash c2 then
        match digit c1 with
        | Some d1 => if 1 <=? d1 then pair d1 <$> parse_day rest else None
        | None => None
        end
      else two
  | _ => None
  end.

(** [datetime.strptime(s, "%Y-%m-%d").date()]; [None] stands for
    [ValueError].  [%Y] is four digits. *)
Definition strptime_Ymd (s : string) : option Date :=
  match list_ascii_of_string s with
  | y1 :: y2 :: y3 :: y4 :: c :: rest =>
      if bool_decide (c = "-"%char) then
        match digit y1, digit y2, digit y3, digit y4 with
        | Some a, Some b, Some c', Some d =>
            match parse_month_day rest with
            | Some (m, dd) => make_date (1000*a + 100*b + 10*c' + d) m dd
            | None => None
            end
        | _, _, _, _ => None
        end
      else None
  | _ => None
  end.

End Py.

(** ** airport/views.py *)

Module Airport.
Import Rest Py.

(** Rows of the tables the views read and write.  The models are the
    ones of the data model: a ticket belongs to a flight and an order, a
    flight to an airplane and a route, an order to a user. *)
Record Airplane := {
  airplane_name : string;
  rows : Z;
  seats_in_row : Z;
  airplane_type : Z
}.

Record Flight := {
  route : Z;
  airplane : Z;
  departure_time : DateTime;
  arrival_time : DateTime;
  crew : gset Z
}.

Record Ticket := { row : Z; seat : Z; flight : Z; order : Z }.

Record Order := { created_at : DateTime; user : Z }.

Record DB := {
  airplanes : gmap Z Airplane;
  flights : gmap Z Flight;
  tickets : gmap Z Ticket;
  orders : gmap Z Order
}.

(** [if value:] on a query parameter: absent and empty both fail it. *)
Definition truthy (v : option string) : option string :=
  match v with
  | Some s => if bool_decide (s = EmptyString) then None else Some s
  | None => None
  end.

(** [params_to_ints]: [[int(str_id) for str_id in queryset.split(",")]];
    any piece that is not a number raises [ValueError]. *)
Definition params_to_ints (queryset : string) : raises (list Z) :=
  match mapM int (split "," queryset) with
  | Some ids => inr ids
  | None => inl ValueError
  end.

Module FlightViewSet.

Definition permission_classes := [IsAdminOrReadOnly].

(** A row of the flight queryset: the flight, its airplane joined by
    [select_related], and the annotation when there is one. *)
Record Row := {
  flight_of : Flight;
  airplane_of : Airplane;
  free_tickets_seat : option Z
}.

Definition queryset (db : DB) : gmap Z Row :=
  omap (λ f, a ← airplanes db !! airplane f;
             Some {| flight_of := f; airplane_of := a;
                     free_tickets_seat := None |})
       (flights db).

(** [Count("tickets")] for the flight under key [pk]. *)
Definition Count_tickets (db : DB) (pk : Z) : Z :=
  Z.of_nat (size (filter (λ kt, flight kt.2 = pk) (tickets db))).

Definition annotate (db : DB) (qs : gmap Z Row) : gmap Z Row :=
  map_imap (λ pk r,
    Some {| flight_of := flight_of r; airplane_of := airplane_of r;
            free_tickets_seat :=
              Some (rows (airplane_of r) * seats_in_row (airplane_of r)
                    - Count_tickets db pk) |}) qs.

Definition get_queryset (action : Action)
  (query_params : gmap string string) (db : DB) : raises (gmap Z Row) :=
  let queryset := queryset db in
  queryset ←
    match truthy (query_params !! "route"%string) with
    | Some route_param =>
        route_ids ← params_to_ints route_param;
        mret (filter (λ kr, route (flight_of kr.2) ∈ route_ids) queryset)
    | None => mret queryset
    end;
  queryset ←
    match truthy (query_params !! "departure_time"%string) with
    | Some value =>
        match strptime_Ymd value with
        | Some d =>
            mret (filter
              (λ kr, date (departure_time (flight_of kr.2)) = d) queryset)
        | None => inl ValueError
        end
    | None => mret queryset
    end;
  mret (match action with
        | list_ | retrieve => annotate db queryset
        | _ => queryset
        end).

(** [ListModelMixin.list] *)
Definition list (who : Principal) (query_params : gmap string string)
  (db : DB) : Response (gmap Z Row) * DB :=
  dispatch permission_classes GET who (λ db,
    match get_queryset list_ query_params db with
    | inr qs => (Reply HTTP_200_OK (Data qs), db)
    | inl e => (Raise e, db)
    end) db.

(** [RetrieveModelMixin.retrieve], through [get_object]. *)
Definition retrieve (who : Principal) (query_params : gmap string string)
  (pk : Z) (db : DB) : Response Row * DB :=
  dispatch permission_classes GET who (λ db,
    match get_queryset Rest.retrieve query_params db
            ≫= (λ qs, get_object_or_404 qs pk) with
    | inr r => (Reply HTTP_200_OK (Data r), db)
    | inl e => (Raise e, db)
    end) db.

End FlightViewSet.

Module OrderSerializer.

(** One entry of the ticket list of the order write shape. *)
Record TicketData := { flight_id : Z; row_data : Z; seat_data : Z }.

(** [request.data] of an order creation: the ticket list, and a [user]
    key a client may add although the write shape has no such field. *)
Record Payload := { tickets_data : list TicketData; user_data : option Z }.

(** What [create] receives: the validated fields of the write shape
    with the keyword arguments of [save] merged over them. *)
Record validated_data := { vd_tickets : list TicketData; vd_user : Z }.

Definition same_slot (t : TicketData) (k : Ticket) : Prop :=
  flight k = flight_id t ∧ row k = row_data t ∧ seat k = seat_data t.

#[global] Instance same_slot_dec t k : Decision (same_slot t k).
Proof. unfold same_slot. apply _. Defined.

Definition slot_taken (db : DB) (t : TicketData) : bool :=
  bool_decide (map_Exists (λ _ k, same_slot t k) (tickets db)).

Definition in_range (lo x hi : Z) : bool := (lo <=? x) && (x <=? hi).

(** Modelled from the spec: [airport/serializers.py] and
    [airport/models.py] are missing.  "Each ticket is revalidated
    against its flight's airplane capacity and against uniqueness of
    (flight, row, seat) before commit; any violation aborts the whole
    order with a field-level error"; "row ∈ [1, airplane.rows],
    seat ∈ [1, seats_in_row]"; a foreign key given as a bare identifier
    must exist. *)
Definition validate_ticket (db : DB) (t : TicketData) : raises unit :=
  match flights db !! flight_id t ≫= (λ f, airplanes db !! airplane f) with
  | None => inl (ValidationError "flight")
  | Some a =>
      if negb (in_range 1 (row_data t) (rows a))
      then inl (ValidationError "row")
      else if negb (in_range 1 (seat_data t) (seats_in_row a))
      then inl (ValidationError "seat")
      else if slot_taken db t
      then inl (ValidationError "non_field_errors")
      else inr ()
  end.

Definition insert_ticket (k : Ticket) (db : DB) : DB :=
  {| airplanes := airplanes db; flights := flights db;
     tickets := <[next_pk (tickets db) := k]> (tickets db);
     orders := orders db |}.

Definition insert_order (pk : Z) (o : Order) (db : DB) : DB :=
  {| airplanes := airplanes db; flights := flights db;
     tickets := tickets db;
     orders := <[pk := o]> (orders db) |}.

(** Modelled from the spec: the loop of [OrderSerializer.create] over
    the ticket list, each ticket checked against the store as it stands
    inside the transaction and then inserted for the new order. *)
Fixpoint create_tickets (order_pk : Z) (ts : list TicketData) (db : DB)
  : raises DB :=
  match ts with
  | [] => mret db
  | t :: ts' =>
      _ ← validate_ticket db t;
      create_tickets order_pk ts'
        (insert_ticket {| row := row_data t; seat := seat_data t;
                          flight := flight_id t; order := order_pk |} db)
  end.

(** Modelled from the spec: [OrderSerializer.create] is missing.  "Order
    write shape: accepts a list of ticket specifications (flight id,
    row, seat)"; the order row is made for the user in the validated
    data, then its tickets. *)
Definition create (vd : validated_data) (now : DateTime) (db : DB)
  : raises (Z * DB) :=
  let order_pk := next_pk (orders db) in
  db' ← create_tickets order_pk (vd_tickets vd)
          (insert_order order_pk
             {| created_at := now; user := vd_user vd |} db);
  mret (order_pk, db').

(** Modelled from the spec: "creation must be atomic — either the whole
    order and all tickets persist, or none do".  [transaction.atomic]:
    the body's writes are kept when it returns and undone when it
    raises. *)
Definition atomic {A} (body : DB → raises (A * DB)) (db : DB)
  : raises A * DB :=
  match body db with
  | inr (a, db') => (inr a, db')
  | inl e => (inl e, db)
  end.

(** [serializer.save] with keyword arguments: they override the
    validated fields; [user_data] is no field of the write shape and
    does not reach [validated_data]. *)
Definition save (data : Payload) (user_kw : User) (now : DateTime)
  (db : DB) : raises Z * DB :=
  atomic (create {| vd_tickets := tickets_data data;
                    vd_user := id user_kw |} now) db.

End OrderSerializer.

Module OrderViewSet.

Definition permission_classes := [IsAuthenticated].

(** An order with its tickets, as [prefetch_related] loads them. *)
Record Row := { order_of : Order; tickets_of : gmap Z Ticket }.

Definition queryset (db : DB) : gmap Z Row :=
  map_imap (λ pk o,
    Some {| order_of := o;
            tickets_of := filter (λ kt, order kt.2 = pk) (tickets db) |})
    (orders db).

(** [queryset.filter(user=self.request.user).distinct()]; the anonymous
    user is no value for the field. *)
Definition get_queryset (who : Principal) (db : DB)
  : raises (gmap Z Row) :=
  match who with
  | Account u =>
      mret (filter (λ kr, user (order_of kr.2) = id u) (queryset db))
  | AnonymousUser => inl TypeError
  end.

Definition list (who : Principal) (db : DB)
  : Response (gmap Z Row) * DB :=
  dispatch permission_classes GET who (λ db,
    match get_queryset who db with
    | inr qs => (Reply HTTP_200_OK (Data qs), db)
    | inl e => (Raise e, db)
    end) db.

Definition retrieve (who : Principal) (pk : Z) (db : DB)
  : Response Row * DB :=
  dispatch permission_classes GET who (λ db,
    match get_queryset who db ≫= (λ qs, get_object_or_404 qs pk) with
    | inr r => (Reply HTTP_200_OK (Data r), db)
    | inl e => (Raise e, db)
    end) db.

(** [perform_create]: [serializer.save(user=self.request.user)]. *)
Definition perform_create (who : Principal)
  (data : OrderSerializer.Payload) (now : DateTime) (db : DB)
  : raises Z * DB :=
  match who with
  | Account u => OrderSerializer.save data u now db
  | AnonymousUser => (inl ValueError, db)
  end.

(** [CreateModelMixin.create]; the reply carries the key of the new
    order. *)
Definition create (who : Principal) (data : OrderSerializer.Payload)
  (now : DateTime) (db : DB) : Response Z * DB :=
  dispatch permission_classes POST who (λ db,
    match perform_create who data now db with
    | (inr pk, db') => (Reply HTTP_201_CREATED (Data pk), db')
    | (inl e, db') => (Raise e, db')
    end) db.

End OrderViewSet.

(** The standard actions of a [ModelViewSet] over one table.  The
    serializer classes are missing: what a serializer accepts is the
    parameter [is_valid], given the rows to compare with and the row
    offered.  Deleting a row leaves the other tables alone. *)
Section ModelViewSet.
Context {R : Type}.
Variable permission_classes : list Permission.
Variable is_valid : gmap Z R → R → bool.

Inductive Call :=
| list_call
| retrieve_call (pk : Z)
| create_call (data : R)
| update_call (pk : Z) (data : R)
| partial_update_call (pk : Z) (patch : R → R)
| destroy_call (pk : Z).

Definition action_of (c : Call) : Action :=
  match c with
  | list_call => list_
  | retrieve_call _ => retrieve
  | create_call _ => create
  | update_call _ _ => update
  | partial_update_call _ _ => partial_update
  | destroy_call _ => destroy
  end.

Definition save_over (pk : Z) (data : R) (t : gmap Z R)
  : Response (gmap Z R) * gmap Z R :=
  if is_valid (delete pk t) data
  then (Reply HTTP_200_OK (Data {[ pk := data ]}), <[pk := data]> t)
  else (Raise (ValidationError "non_field_errors"), t).

Definition handle (c : Call) (t : gmap Z R)
  : Response (gmap Z R) * gmap Z R :=
  match c with
  | list_call => (Reply HTTP_200_OK (Data t), t)
  | retrieve_call pk =>
      match get_object_or_404 t pk with
      | inr r => (Reply HTTP_200_OK (Data {[ pk := r ]}), t)
      | inl e => (Raise e, t)
      end
  | create_call data =>
      if is_valid t data
      then (Reply HTTP_201_CREATED (Data {[ next_pk t := data ]}),
            <[next_pk t := data]> t)
      else (Raise (ValidationError "non_field_errors"), t)
  | update_call pk data =>
      match get_object_or_404 t pk with
      | inr _ => save_over pk data t
      | inl e => (Raise e, t)
      end
  | partial_update_call pk patch =>
      match get_object_or_404 t pk with
      | inr r => save_over pk (patch r) t
      | inl e => (Raise e, t)
      end
  | destroy_call pk =>
      match get_object_or_404 t pk with
      | inr _ => (Reply HTTP_204_NO_CONTENT (Detail ""), delete pk t)
      | inl e => (Raise e, t)
      end
  end.

Definition model_view_set (who : Principal) (c : Call) (t : gmap Z R)
  : Response (gmap Z R) * gmap Z R :=
  dispatch permission_classes (method_of (action_of c)) who (handle c) t.

End ModelViewSet.

Record Crew := { first_name : string; last_name : string }.
Record AirplaneType := { type_name : string }.
Record Country := { country_name : string }.
Record City := { city_name : string; country : Z }.

Module CrewViewSet.
Definition permission_classes := [IsAdminOrIfAuthenticatedReadOnly].
Definition view := @model_view_set Crew permission_classes.
End CrewViewSet.

Module AirplaneTypeViewSet.
Definition permission_classes := [IsAdminUser].
Definition view := @model_view_set AirplaneType permission_classes.
End AirplaneTypeViewSet.

Module CountryViewSet.
Definition permission_classes := [IsAdminUser].
Definition view := @model_view_set Country permission_classes.
End CountryViewSet.

Module CityViewSet.
Definition permission_classes := [IsAdminUser].
Definition view := @model_view_set City permission_classes.
End CityViewSet.

End Airport.

(** ** chat_msg/views.py *)

Module Chat.
Import Rest Py.

Record ChatSupport := {
  enabled : bool;
  is_support : bool;
  author_created : Z;
  user_list : gset Z
}.

Record ChatMessage := {
  text : string;
  user : Z;
  support_msg : Z;
  created_at : DateTime
}.

Record DB := {
  chats : gmap Z ChatSupport;
  messages : gmap Z ChatMessage
}.

Definition with_chats (t : gmap Z ChatSupport) (db : DB) : DB :=
  {| chats := t; messages := messages db |}.

Definition with_messages (t : gmap Z ChatMessage) (db : DB) : DB :=
  {| chats := chats db; messages := t |}.

(** [request.user.id]: the anonymous user has none. *)
Definition user_id (who : Principal) : option Z :=
  match who with Account u => Some (id u) | AnonymousUser => None end.

(** The lookup [user_list=value] on the many-to-many relation; against
    no value it holds of the chats without members. *)
Definition user_list_is (value : option Z) (c : ChatSupport) : Prop :=
  match value with
  | Some i => i ∈ user_list c
  | None => user_list c = ∅
  end.

#[global] Instance user_list_is_dec v c : Decision (user_list_is v c).
Proof. destruct v; simpl; apply _. Defined.

(** [request.data] of the message endpoints: either key may be absent. *)
Record MessageData := {
  text_data : option string;
  support_msg_data : option Z
}.

Module ChatMessageSerializerCreate.

(** Modelled from the spec: [chat_msg/serializers.py] is missing.  A
    chat message has a text and a reference [support_msg] to its chat;
    a write shape takes a foreign key as a bare identifier and checks
    that it exists.  Both are required on creation; the result is the
    validated pair, or the field at fault. *)
Definition is_valid (db : DB) (data : MessageData)
  : string + (string * Z) :=
  match text_data data, support_msg_data data with
  | None, _ => inl "text"%string
  | Some _, None => inl "support_msg"%string
  | Some t, Some c =>
      if bool_decide (is_Some (chats db !! c)) then inr (t, c)
      else inl "support_msg"%string
  end.

(** Modelled from the spec: the same shape with [partial=True]: a key
    left out keeps the value of the instance. *)
Definition is_valid_partial (db : DB) (instance : ChatMessage)
  (data : MessageData) : string + ChatMessage :=
  let t := default (text instance) (text_data data) in
  match support_msg_data data with
  | None =>
      inr {| text := t; user := user instance;
             support_msg := support_msg instance;
             created_at := created_at instance |}
  | Some c =>
      if bool_decide (is_Some (chats db !! c))
      then inr {| text := t; user := user instance; support_msg := c;
                  created_at := created_at instance |}
      else inl "support_msg"%string
  end.

End ChatMessageSerializerCreate.

Module ChatSupportViewSet.

(** [ChatSupport.objects...filter(enabled=True)] *)
Definition queryset (db : DB) : gmap Z ChatSupport :=
  filter (λ kc, enabled kc.2 = true) (chats db).

Definition permission_classes := [IsAdminUser].

Definition get_queryset (who : Principal) (db : DB)
  : gmap Z ChatSupport :=
  let queryset := queryset db in
  if negb (staff who) then
    filter (λ kc, user_list_is (user_id who) kc.2) queryset
  else if staff who then
    filter (λ kc, is_support kc.2 = true) queryset
  else queryset.

(** The standard actions. *)
Definition list (who : Principal) (db : DB)
  : Response (gmap Z ChatSupport) * DB :=
  dispatch permission_classes GET who (λ db,
    (Reply HTTP_200_OK (Data (get_queryset who db)), db)) db.

Definition get_object (who : Principal) (pk : Z) (db : DB)
  : raises ChatSupport :=
  get_object_or_404 (get_queryset who db) pk.

Definition retrieve (who : Principal) (pk : Z) (db : DB)
  : Response ChatSupport * DB :=
  dispatch permission_classes GET who (λ db,
    match get_object who pk db with
    | inr c => (Reply HTTP_200_OK (Data c), db)
    | inl e => (Raise e, db)
    end) db.

(** [UpdateModelMixin.update]; the serializer of the chat is missing
    and is the parameter [serializer]: the row it saves over the
    instance, or nothing when it refuses the data. *)
Definition update (serializer : ChatSupport → option ChatSupport)
  (who : Principal) (pk : Z) (db : DB) : Response ChatSupport * DB :=
  dispatch permission_classes PUT who (λ db,
    match get_object who pk db with
    | inr c =>
        match serializer c with
        | Some c' =>
            (Reply HTTP_200_OK (Data c'),
             with_chats (<[pk := c']> (chats db)) db)
        | None => (Raise (ValidationError "non_field_errors"), db)
        end
    | inl e => (Raise e, db)
    end) db.

(** [DestroyModelMixin.destroy]; what deleting a chat does to its
    messages is decided by the missing model and is the parameter
    [on_delete]. *)
Definition destroy
  (on_delete : Z → gmap Z ChatMessage → gmap Z ChatMessage)
  (who : Principal) (pk : Z) (db : DB) : Response ChatSupport * DB :=
  dispatch permission_classes DELETE who (λ db,
    match get_object who pk db with
    | inr _ =>
        (Reply HTTP_204_NO_CONTENT (Detail ""),
         {| chats := delete pk (chats db);
            messages := on_delete pk (messages db) |})
    | inl e => (Raise e, db)
    end) db.

(** The extra actions.  None of the three message actions names
    permission classes of its own, so the ones of the class apply. *)
Definition create_message (who : Principal) (pk : Z)
  (request_data : MessageData) (now : DateTime) (db : DB)
  : Response ChatMessage * DB :=
  dispatch permission_classes POST who (λ db,
    let data := {| text_data := text_data request_data;
                   support_msg_data := Some pk |} in
    match ChatMessageSerializerCreate.is_valid db request_data with
    | inr (t, c) =>
        match who with
        | Account u =>
            let m := {| text := t; user := id u; support_msg := c;
                        created_at := now |} in
            (Reply HTTP_200_OK (Data m),
             with_messages (<[next_pk (messages db) := m]> (messages db))
               db)
        | AnonymousUser => (Raise ValueError, db)
        end
    | inl field => (Reply HTTP_400_BAD_REQUEST (Errors field), db)
    end) db.

(** [get_object_or_404(ChatMessage, id=message_pk, user=request.user)] *)
Definition get_message (who : Principal) (message_pk : Z) (db : DB)
  : raises ChatMessage :=
  match who with
  | Account u =>
      get_object_or_404
        (filter (λ km, user km.2 = id u) (messages db)) message_pk
  | AnonymousUser => inl TypeError
  end.

Definition update_message (who : Principal) (pk message_pk : Z)
  (request_data : MessageData) (db : DB) : Response ChatMessage * DB :=
  dispatch permission_classes PUT who (λ db,
    match get_message who message_pk db with
    | inr message =>
        match ChatMessageSerializerCreate.is_valid_partial
                db message request_data with
        | inr m =>
            (Reply HTTP_200_OK (Data m),
             with_messages (<[message_pk := m]> (messages db)) db)
        | inl field => (Reply HTTP_400_BAD_REQUEST (Errors field), db)
        end
    | inl e => (Raise e, db)
    end) db.

Definition delete_message (who : Principal) (pk message_pk : Z)
  (db : DB) : Response ChatMessage * DB :=
  dispatch permission_classes DELETE who (λ db,
    match get_message who message_pk db with
    | inr message =>
        (Reply HTTP_204_NO_CONTENT
           (Detail "Message deleted successfully."),
         with_messages (delete message_pk (messages db)) db)
    | inl e => (Raise e, db)
    end) db.

Definition set_user_list (pk : Z) (c : ChatSupport) (ul : gset Z)
  (db : DB) : DB :=
  with_chats
    (<[pk := {| enabled := enabled c; is_support := is_support c;
                author_created := author_created c;
                user_list := ul |}]> (chats db)) db.

(** The two membership actions name [IsAdminUser] themselves and look
    the chat up among all chats. *)
Definition connect_support_to_chat (who : Principal) (pk : Z) (db : DB)
  : Response () * DB :=
  dispatch [IsAdminUser] PUT who (λ db,
    match get_object_or_404 (chats db) pk, who with
    | inr msg_support, Account u =>
        if negb (bool_decide (id u ∈ user_list msg_support)) then
          (Reply HTTP_200_OK
             (Detail "Support is successfully connected to the chat."),
           set_user_list pk msg_support
             ({[ id u ]} ∪ user_list msg_support) db)
        else
          (Reply HTTP_400_BAD_REQUEST
             (Detail "User already connected to the chat."), db)
    | inr _, AnonymousUser => (Raise TypeError, db)
    | inl e, _ => (Raise e, db)
    end) db.

Definition disconnect_user_from_chat (who : Principal) (pk : Z)
  (db : DB) : Response () * DB :=
  dispatch [IsAdminUser] PUT who (λ db,
    match get_object_or_404 (chats db) pk, who with
    | inr msg_support, Account u =>
        if bool_decide (id u ∈ user_list msg_support) then
          (Reply HTTP_200_OK
             (Detail "Support is successfully deleted from the chat."),
           set_user_list pk msg_support
             (user_list msg_support ∖ {[ id u ]}) db)
        else
          (Reply HTTP_400_BAD_REQUEST (Detail "User not in chat."), db)
    | inr _, AnonymousUser => (Raise TypeError, db)
    | inl e, _ => (Raise e, db)
    end) db.

End ChatSupportViewSet.

End Chat.

(** ** The properties in the words of the specification *)

Module Spec.
Import Rest Py Airport.
Import OrderSerializer.

(** "capacity(a) = a.rows × a.seats_in_row" *)
Definition capacity (a : Airplane) : Z := rows a * seats_in_row a.

(** The tickets sold on the flight under key [pk]. *)
Definition tickets_sold (db : DB) (pk : Z) : list (Z * Ticket) :=
  filter (λ kt, flight kt.2 = pk) (map_to_list (tickets db)).

(** "free_tickets_seat(flight) = capacity(flight.airplane) − |tickets(flight)|" *)
Definition free_seats (db : DB) (pk : Z) (a : Airplane) : Z :=
  capacity a - Z.of_nat (List.length (tickets_sold db pk)).

(** What the derived field of a flight row under key [pk] must be: the
    row is the flight of the store joined with its airplane, and its
    [free_tickets_seat] is the free seats counted on that store. *)
Definition derived (db : DB) (pk : Z) (r : FlightViewSet.Row) : Prop :=
  flights db !! pk = Some (FlightViewSet.flight_of r)
  ∧ airplanes db !! airplane (FlightViewSet.flight_of r)
    = Some (FlightViewSet.airplane_of r)
  ∧ FlightViewSet.free_tickets_seat r
    = Some (free_seats db pk (FlightViewSet.airplane_of r)).

(** The slot a ticket specification asks for. *)
Definition slot (t : TicketData) : Z * Z * Z :=
  (flight_id t, row_data t, seat_data t).

(** A ticket specification is valid against the store: its flight is
    known, row and seat lie within the airplane, the slot is free. *)
Definition ticket_valid (db : DB) (t : TicketData) : bool :=
  match flights db !! flight_id t with
  | Some f =>
      match airplanes db !! airplane f with
      | Some a =>
          bool_decide (1 ≤ row_data t ≤ rows a)
          && bool_decide (1 ≤ seat_data t ≤ seats_in_row a)
          && bool_decide (∀ k tk, tickets db !! k = Some tk →
                                  slot t ≠ (flight tk, row tk, seat tk))
      | None => false
      end
  | None => false
  end.

(** A request is valid when each of its tickets is and no slot occurs
    twice in it. *)
Definition request_valid (db : DB) (ts : list TicketData) : bool :=
  forallb (ticket_valid db) ts && bool_decide (NoDup (slot <$> ts)).

(** The ticket row made for a specification and an order. *)
Definition ticket_for (order_pk : Z) (t : TicketData) : Ticket :=
  {| row := row_data t; seat := seat_data t; flight := flight_id t;
     order := order_pk |}.

(** The tickets of a request are persisted for the order [order_pk]: the
    table [new] keeps every row of [old], holds under a key unused before a
    row for each ticket of the request, and holds nothing else. *)
Definition tickets_persisted (order_pk : Z) (ts : list TicketData)
  (old new : gmap Z Ticket) : Prop :=
  (∀ k tk, old !! k = Some tk → new !! k = Some tk)
  ∧ (∀ t, t ∈ ts →
       ∃ k, old !! k = None ∧ new !! k = Some (ticket_for order_pk t))
  ∧ (∀ k tk, new !! k = Some tk →
       old !! k = Some tk ∨ ∃ t, t ∈ ts ∧ tk = ticket_for order_pk t)
  ∧ size new = (size old + List.length ts)%nat.

End Spec.

(** ** Stores and requests for the examples *)

Module Sample.
Import Rest Py.

Definition at_ (y m d h : Z) : DateTime :=
  {| date := {| year := y; month := m; day := d |};
     hour := h; minute := 0; second := 0 |}.

Definition customer : User := {| id := 10; is_staff := false |}.
Definition other_customer : User := {| id := 11; is_staff := false |}.
Definition operator : User := {| id := 20; is_staff := true |}.

(** One airplane of two rows by three seats, two flights on consecutive
    days, one ticket sold on flight 5 to the order of [customer]. *)
Definition airport_db : Airport.DB :=
  {| Airport.airplanes :=
       {[ 1 := {| Airport.airplane_name := "A320"; Airport.rows := 2;
                  Airport.seats_in_row := 3; Airport.airplane_type := 1 |} ]};
     Airport.flights :=
       {[ 5 := {| Airport.route := 1; Airport.airplane := 1;
                  Airport.departure_time := at_ 2024 3 1 9;
                  Airport.arrival_time := at_ 2024 3 1 12;
                  Airport.crew := ∅ |};
          6 := {| Airport.route := 2; Airport.airplane := 1;
                  Airport.departure_time := at_ 2024 3 2 21;
                  Airport.arrival_time := at_ 2024 3 3 1;
                  Airport.crew := ∅ |} ]};
     Airport.tickets :=
       {[ 1 := {| Airport.row := 1; Airport.seat := 1; Airport.flight := 5;
                  Airport.order := 1 |} ]};
     Airport.orders :=
       {[ 1 := {| Airport.created_at := at_ 2024 2 1 8;
                  Airport.user := 10 |};
          2 := {| Airport.created_at := at_ 2024 2 2 8;
                  Airport.user := 11 |} ]} |}.

Definition on_first_of_march : gmap string string :=
  {[ "departure_time"%string := "2024-03-01"%string ]}.

Definition on_abc : gmap string string :=
  {[ "departure_time"%string := "abc"%string ]}.

Definition on_nothing : gmap string string :=
  {[ "departure_time"%string := ""%string ]}.

Definition seat (f r s : Z) : Airport.OrderSerializer.TicketData :=
  {| Airport.OrderSerializer.flight_id := f;
     Airport.OrderSerializer.row_data := r;
     Airport.OrderSerializer.seat_data := s |}.

(** Two free seats of flight 5, with a [user] key naming someone else. *)
Definition good_order : Airport.OrderSerializer.Payload :=
  {| Airport.OrderSerializer.tickets_data := [seat 5 1 2; seat 5 2 3];
     Airport.OrderSerializer.user_data := Some 11 |}.

(** The same slot twice. *)
Definition duplicate_order : Airport.OrderSerializer.Payload :=
  {| Airport.OrderSerializer.tickets_data := [seat 5 2 1; seat 5 2 1];
     Airport.OrderSerializer.user_data := None |}.

Definition crews : gmap Z Airport.Crew :=
  {[ 1 := {| Airport.first_name := "Ada"; Airport.last_name := "Byron" |} ]}.

(** Chat 1 is an enabled thread of [customer], not flagged as a support
    queue; chat 2 is an enabled support queue; chat 3 is disabled.
    Message 7 in chat 2 was written by [operator], message 8 in chat 1
    by [customer]. *)
Definition chat_db : Chat.DB :=
  {| Chat.chats :=
       {[ 1 := {| Chat.enabled := true; Chat.is_support := false;
                  Chat.author_created := 10; Chat.user_list := {[ 10 ]} |};
          2 := {| Chat.enabled := true; Chat.is_support := true;
                  Chat.author_created := 10; Chat.user_list := {[ 10 ]} |};
          3 := {| Chat.enabled := false; Chat.is_support := true;
                  Chat.author_created := 10; Chat.user_list := {[ 10 ]} |} ]};
     Chat.messages :=
       {[ 7 := {| Chat.text := "hello"; Chat.user := 20;
                  Chat.support_msg := 2;
                  Chat.created_at := at_ 2024 2 1 8 |};
          8 := {| Chat.text := "help"; Chat.user := 10;
                  Chat.support_msg := 1;
                  Chat.created_at := at_ 2024 2 1 9 |} ]} |}.

Definition says (t : string) (chat : Z) : Chat.MessageData :=
  {| Chat.text_data := Some t; Chat.support_msg_data := Some chat |}.

End Sample.

(** ** Python and Django functions behind the other filters *)

Module Text.
Import Rest Py.




Definition digit_char (d : Z) : ascii := ascii_of_nat (Z.to_nat (48 + d)).

(** [d.isoformat()] for a date: [YYYY-MM-DD] with leading zeros. *)
Definition isoformat (d : Date) : string :=
  let y := year d in
  string_of_list_ascii
    [digit_char (y / 1000); digit_char ((y / 100) mod 10);
     digit_char ((y / 10) mod 10); digit_char (y mod 10); "-"%char;
     digit_char (month d / 10); digit_char (month d mod 10); "-"%char;
     digit_char (day d / 10); digit_char (day d mod 10)].

(** A date of the calendar, as the constructor of [date] accepts it. *)
Definition is_date (d : Date) : Prop :=
  make_date (year d) (month d) (day d) = Some d.

Definition lower (c : ascii) : ascii :=
  let n := nat_of_ascii c in
  if (65 <=? n)%nat && (n <=? 90)%nat then ascii_of_nat (n + 32) else c.

Definition upper (c : ascii) : ascii :=
  let n := nat_of_ascii c in
  if (97 <=? n)%nat && (n <=? 122)%nat then ascii_of_nat (n - 32) else c.

Fixpoint starts_with (p s : list ascii) : bool :=
  match p, s with
  | [], _ => true
  | c :: p', d :: s' => bool_decide (c = d) && starts_with p' s'
  | _ :: _, [] => false
  end.

(** [needle in hay] *)
Fixpoint contains (needle hay : list ascii) : bool :=
  starts_with needle hay
  || match hay with
     | [] => false
     | _ :: hay' => contains needle hay'
     end.

(** The field lookup [icontains]: the pattern occurs in the value, letter
    case apart. *)
Definition icontains (value pattern : string) : bool :=
  contains (lower <$> list_ascii_of_string pattern)
           (lower <$> list_ascii_of_string value).

Definition to_upper (s : string) : string :=
  string_of_list_ascii (upper <$> list_ascii_of_string s).

End Text.

(** ** airport/views.py: airports, routes and pages *)

Module Routes.
Import Rest Py.

Record Airport := { name : string; closest_big_city : Z }.

Record Route := { source : Z; destination : Z; distance : Z }.

Record DB := {
  countries : gmap Z Airport.Country;
  cities : gmap Z Airport.City;
  airports : gmap Z Airport;
  routes : gmap Z Route
}.

Module AirportViewSet.

Definition permission_classes := [IsAdminOrReadOnly].

(** An airport with its city and the country of the city, as
    [select_related("closest_big_city__country")] joins them. *)
Record Row := {
  airport_of : Airport;
  city_of : Airport.City;
  country_of : Airport.Country
}.

Definition joined (db : DB) (a : Airport) : option Row :=
  c ← cities db !! closest_big_city a;
  k ← countries db !! Airport.country c;
  Some {| airport_of := a; city_of := c; country_of := k |}.

Definition queryset (db : DB) : gmap Z Row := omap (joined db) (airports db).

Definition get_queryset (query_params : gmap string string) (db : DB)
  : gmap Z Row :=
  let queryset := queryset db in
  let airport_name := query_params !! "airport_name"%string in
  let city := query_params !! "city"%string in
  let queryset :=
    match Airport.truthy airport_name with
    | Some airport_name =>
        filter (λ kr,
          Text.icontains (name (airport_of kr.2)) airport_name = true)
          queryset
    | None => queryset
    end in
  let queryset :=
    match Airport.truthy city with
    | Some city =>
        filter (λ kr,
          Text.icontains (Airport.city_name (city_of kr.2)) city = true)
          queryset
    | None => queryset
    end in
  queryset.

Definition list (who : Principal) (query_params : gmap string string)
  (db : DB) : Response (gmap Z Row) * DB :=
  dispatch permission_classes GET who (λ db,
    (Reply HTTP_200_OK (Data (get_queryset query_params db)), db)) db.

Definition retrieve (who : Principal) (query_params : gmap string string)
  (pk : Z) (db : DB) : Response Row * DB :=
  dispatch permission_classes GET who (λ db,
    match get_object_or_404 (get_queryset query_params db) pk with
    | inr r => (Reply HTTP_200_OK (Data r), db)
    | inl e => (Raise e, db)
    end) db.

End AirportViewSet.

Module RouteViewSet.

Definition permission_classes := [IsAdminOrReadOnly].

(** A route with both airports joined, each with its city and country. *)
Record Row := {
  route_of : Route;
  source_of : AirportViewSet.Row;
  destination_of : AirportViewSet.Row
}.

Definition joined (db : DB) (r : Route) : option Row :=
  s ← airports db !! source r ≫= AirportViewSet.joined db;
  d ← airports db !! destination r ≫= AirportViewSet.joined db;
  Some {| route_of := r; source_of := s; destination_of := d |}.

Definition queryset (db : DB) : gmap Z Row := omap (joined db) (routes db).

Definition get_queryset (query_params : gmap string string) (db : DB)
  : raises (gmap Z Row) :=
  let queryset := queryset db in
  let source_param := query_params !! "source"%string in
  let destination_param := query_params !! "destination"%string in
  queryset ←
    match Airport.truthy source_param with
    | Some source_param =>
        source_ids ← Airport.params_to_ints source_param;
        mret (filter (λ kr, source (route_of kr.2) ∈ source_ids) queryset)
    | None => mret queryset
    end;
  queryset ←
    match Airport.truthy destination_param with
    | Some destination_param =>
        destination_ids ← Airport.params_to_ints destination_param;
        mret (filter (λ kr, destination (route_of kr.2) ∈ destination_ids)
                queryset)
    | None => mret queryset
    end;
  mret queryset.

Definition list (who : Principal) (query_params : gmap string string)
  (db : DB) : Response (gmap Z Row) * DB :=
  dispatch permission_classes GET who (λ db,
    match get_queryset query_params db with
    | inr qs => (Reply HTTP_200_OK (Data qs), db)
    | inl e => (Raise e, db)
    end) db.

End RouteViewSet.

(** [PaginationClass(PageNumberPagination)]: the three settings of the
    class, and the page arithmetic of the framework that reads them. *)
Module PaginationClass.

Definition page_size : Z := 5.
Definition page_size_query_param : string := "page_size".
Definition max_page_size : Z := 100.

(** [_positive_int(integer_string, strict, cutoff)]; [None] stands for
    [ValueError]. *)
Definition positive_int (integer_string : string) (strict : bool)
  (cutoff : Z) : option Z :=
  ret ← int integer_string;
  if (ret <? 0) || ((ret =? 0) && strict) then None
  else Some (Z.min ret cutoff).

(** [get_page_size]: a missing or refused parameter falls back on
    [page_size]. *)
Definition get_page_size (query_params : gmap string string) : Z :=
  match query_params !! page_size_query_param
        ≫= (λ s, positive_int s true max_page_size) with
  | Some n => n
  | None => page_size
  end.

(** [Paginator.num_pages]: an empty list still has its first page. *)
Definition num_pages (count per_page : Z) : Z :=
  let hits := Z.max 1 count in
  (hits + per_page - 1) / per_page.

(** [Paginator.page(number)] over the object list; any invalid page is
    [NotFound], which the exception handler answers as 404. *)
Definition page {A} (object_list : list A) (per_page : Z) (number : Z)
  : raises (list A) :=
  let count := Z.of_nat (List.length object_list) in
  if (number <? 1) || (num_pages count per_page <? number) then inl Http404
  else
    let bottom := (number - 1) * per_page in
    inr (take (Z.to_nat per_page) (drop (Z.to_nat bottom) object_list)).

End PaginationClass.

End Routes.

(** ** Consistency of the ticket table *)

Module Consistency.
Import Airport.

(** Every ticket lies within the airplane of its flight, and no two
    tickets hold the same seat of the same flight. *)
Definition seats_consistent (db : DB) : Prop :=
  (∀ k t, tickets db !! k = Some t →
     ∃ f a, flights db !! flight t = Some f
            ∧ airplanes db !! airplane f = Some a
            ∧ 1 ≤ row t ≤ rows a ∧ 1 ≤ seat t ≤ seats_in_row a)
  ∧ (∀ k k' t t', tickets db !! k = Some t → tickets db !! k' = Some t' →
       flight t = flight t' → row t = row t' → seat t = seat t' → k = k').

End Consistency.

(** ** A store of airports and routes for the examples *)

Module RouteSample.

(** Two countries with one city each; Heathrow and Gatwick by London, Orly
    by Paris; routes 1 and 3 fly to Orly, route 2 flies back. *)
Definition geo_db : Routes.DB :=
  {| Routes.countries :=
       {[ 1 := {| Airport.country_name := "United Kingdom" |};
          2 := {| Airport.country_name := "France" |} ]};
     Routes.cities :=
       {[ 1 := {| Airport.city_name := "London"; Airport.country := 1 |};
          2 := {| Airport.city_name := "Paris"; Airport.country := 2 |} ]};
     Routes.airports :=
       {[ 1 := {| Routes.name := "London Heathrow";
                  Routes.closest_big_city := 1 |};
          2 := {| Routes.name := "Paris Orly";
                  Routes.closest_big_city := 2 |};
          3 := {| Routes.name := "London Gatwick";
                  Routes.closest_big_city := 1 |} ]};
     Routes.routes :=
       {[ 1 := {| Routes.source := 1; Routes.destination := 2;
                  Routes.distance := 365 |};
          2 := {| Routes.source := 2; Routes.destination := 1;
                  Routes.distance := 365 |};
          3 := {| Routes.source := 3; Routes.destination := 2;
                  Routes.distance := 330 |} ]} |}.

End RouteSample.

(** * Properties *)

Section framework_facts.
Import Rest.

Lemma next_pk_above {R} (t : gmap Z R) k :
  is_Some (t !! k) → k < next_pk t.
Proof.
  unfold next_pk.
  apply (map_fold_weak_ind
    (λ b (m : gmap Z R), ∀ k, is_Some (m !! k) → k < 1 + b)).
  - intros k' [x Hx]. by rewrite lookup_empty in Hx.
  - intros i x m r Hi IH k' Hk.
    destruct (decide (i = k')) as [->|Hne]; [lia|].
    rewrite lookup_insert_ne in Hk by done. specialize (IH _ Hk). lia.
Qed.

Lemma next_pk_fresh {R} (t : gmap Z R) : t !! next_pk t = None.
Proof.
  destruct (t !! next_pk t) eqn:E; [|done].
  assert (next_pk t < next_pk t) by (apply next_pk_above; eauto). lia.
Qed.

Lemma dispatch_refused {S A} ps m who (h : S → Response A * S) db :
  check_permissions ps m who = false →
  dispatch ps m who h db = (Raise (permission_denied who), db).
Proof. intros H. unfold dispatch. by rewrite H. Qed.

Lemma dispatch_passed {S A} ps m who (h : S → Response A * S) db :
  check_permissions ps m who = true → dispatch ps m who h db = h db.
Proof. intros H. unfold dispatch. by rewrite H. Qed.

Lemma permission_denied_rejected {A} who :
  rejected (A:=A) (Raise (permission_denied who)).
Proof. unfold rejected, permission_denied. destruct (is_authenticated who); auto. Qed.
End framework_facts.

Section flights.
Import Rest Py Airport.
Import FlightViewSet (Row, flight_of, airplane_of, free_tickets_seat,
  queryset, annotate, Count_tickets, get_queryset).

Lemma Count_tickets_sold db pk :
  Count_tickets db pk = Z.of_nat (List.length (Spec.tickets_sold db pk)).
Proof.
  unfold Count_tickets, Spec.tickets_sold. f_equal.
  rewrite <- length_map_to_list.
  apply Permutation_length.
  rewrite map_filter_alt.
  apply map_to_list_to_map, NoDup_fmap_fst.
  - intros k x y Hx Hy.
    apply list_elem_of_filter in Hx as [_ Hx], Hy as [_ Hy].
    apply elem_of_map_to_list in Hx, Hy. congruence.
  - apply NoDup_filter, NoDup_map_to_list.
Qed.

Lemma queryset_lookup db pk r :
  queryset db !! pk = Some r ↔
  ∃ f a, flights db !! pk = Some f ∧ airplanes db !! airplane f = Some a
         ∧ r = {| flight_of := f; airplane_of := a;
                  free_tickets_seat := None |}.
Proof.
  unfold queryset. rewrite lookup_omap_Some. split.
  - intros (f & Hf & Hpk). apply bind_Some in Hf as (a & Ha & [= <-]). eauto.
  - intros (f & a & Hf & Ha & ->). exists f. split; [|done].
    by rewrite Ha.
Qed.

Lemma annotate_lookup db qs pk r :
  annotate db qs !! pk = Some r ↔
  ∃ r0, qs !! pk = Some r0
        ∧ r = {| flight_of := flight_of r0; airplane_of := airplane_of r0;
                 free_tickets_seat :=
                   Some (rows (airplane_of r0) * seats_in_row (airplane_of r0)
                         - Count_tickets db pk) |}.
Proof.
  unfold annotate. rewrite map_lookup_imap, bind_Some.
  split; intros (r0 & H1 & H2); exists r0; split; congruence.
Qed.


Lemma get_queryset_rows action q db qs pk r :
  get_queryset action q db = inr qs → qs !! pk = Some r →
  flights db !! pk = Some (flight_of r)
  ∧ airplanes db !! airplane (flight_of r) = Some (airplane_of r)
  ∧ free_tickets_seat r =
      match action with
      | list_ | retrieve =>
          Some (rows (airplane_of r) * seats_in_row (airplane_of r)
                - Count_tickets db pk)
      | _ => None
      end.
Proof.
  unfold get_queryset. intros Hq Hr.
  assert (∃ base, (∀ k x, base !! k = Some x → queryset db !! k = Some x)
            ∧ qs = match action with
                   | list_ | retrieve => annotate db base
                   | _ => base
                   end) as (base & Hbase & ->).
  { destruct (truthy (q !! "route"%string)) as [rp|]; simpl in Hq;
      [destruct (params_to_ints rp) as [e|ids]; simpl in Hq; [done|]|];
      (destruct (truthy (q !! "departure_time"%string)) as [v|]; simpl in Hq;
        [destruct (strptime_Ymd v) as [d|]; simpl in Hq; [|done]|]);
      unfold mret, raises_ret in Hq; simplify_eq; eexists;
      (split; [|reflexivity]);
      intros k x; rewrite ?map_lookup_filter_Some; tauto. }
  assert (∀ r0, base !! pk = Some r0 →
            flights db !! pk = Some (flight_of r0)
            ∧ airplanes db !! airplane (flight_of r0) = Some (airplane_of r0)
            ∧ free_tickets_seat r0 = None) as Hrow.
  { intros r0 H0. apply Hbase, queryset_lookup in H0
      as (f & a & Hf & Ha & ->). done. }
  destruct action; try (by apply Hrow);
    apply annotate_lookup in Hr as (r0 & H0 & ->);
    destruct (Hrow _ H0) as (? & ? & ?); done.
Qed.

Lemma list_or_retrieve_derived action q db qs pk r :
  action = list_ ∨ action = retrieve →
  get_queryset action q db = inr qs → qs !! pk = Some r → Spec.derived db pk r.
Proof.
  intros Ha Hq Hr.
  destruct (get_queryset_rows _ _ _ _ _ _ Hq Hr) as (Hf & Hp & Hfree).
  unfold Spec.derived, Spec.free_seats, Spec.capacity.
  rewrite <- Count_tickets_sold.
  by destruct Ha as [-> | ->].
Qed.

(** C2: every flight returned by list or retrieve carries
    [free_tickets_seat] equal to rows × seats_in_row of its airplane minus
    the number of tickets sold on it, all read from the one store the
    query ran on; a request without query parameters returns every flight
    so annotated; for any other action the queryset carries no
    annotation. *)
Theorem flight_free_tickets_seat (who : Principal)
  (q : gmap string string) (db : DB) :
  (∀ qs db', FlightViewSet.list who q db = (Reply HTTP_200_OK (Data qs), db') →
     db' = db ∧ ∀ pk r, qs !! pk = Some r → Spec.derived db pk r)
  ∧ (∀ pk r db',
       FlightViewSet.retrieve who q pk db = (Reply HTTP_200_OK (Data r), db') →
       db' = db ∧ Spec.derived db pk r)
  ∧ FlightViewSet.list who ∅ db
      = (Reply HTTP_200_OK (Data (annotate db (queryset db))), db)
  ∧ (∀ action qs pk r,
       action ≠ list_ → action ≠ retrieve →
       get_queryset action q db = inr qs → qs !! pk = Some r →
       free_tickets_seat r = None).
Proof.
  assert (∀ m, SAFE_METHODS m = true →
            check_permissions FlightViewSet.permission_classes m who = true)
    as Hperm.
  { intros m Hm. unfold check_permissions. simpl. by rewrite Hm. }
  split; [|split; [|split]].
  - intros qs db' H.
    unfold FlightViewSet.list in H. rewrite dispatch_passed in H by auto.
    destruct (get_queryset list_ q db) as [|qs'] eqn:Hq; simplify_eq.
    split; [done|]. intros pk r.
    apply list_or_retrieve_derived with (action := list_) (q := q); auto.
  - intros pk r db' H.
    unfold FlightViewSet.retrieve in H.
    rewrite dispatch_passed in H by auto.
    destruct (get_queryset retrieve q db) as [|qs] eqn:Hq; simpl in H;
      [simplify_eq|].
    unfold get_object_or_404 in H.
    destruct (qs !! pk) as [r'|] eqn:Hr; simplify_eq.
    split; [done|].
    apply list_or_retrieve_derived
      with (action := retrieve) (q := q) (qs := qs); auto.
  - unfold FlightViewSet.list. rewrite dispatch_passed by auto. done.
  - intros action qs pk r Hl Hr Hq Hlook.
    destruct (get_queryset_rows _ _ _ _ _ _ Hq Hlook) as (_ & _ & ->).
    by destruct action.
Qed.

Lemma flight_free_tickets_seat_witness :
  ∃ r, FlightViewSet.retrieve AnonymousUser ∅ 5 Sample.airport_db
         = (Reply HTTP_200_OK (Data r), Sample.airport_db)
       ∧ free_tickets_seat r = Some 5.
Proof.
  eexists. split; [reflexivity|].
  destruct (flight_free_tickets_seat AnonymousUser ∅ Sample.airport_db)
    as (_ & Hretrieve & _).
  destruct (Hretrieve 5 _ _ eq_refl) as (_ & _ & _ & ->).
  vm_compute. reflexivity.
Defined.

(** C8 as stated fails: the value [abc] is not a date, and the list
    request ends in an unhandled [ValueError], which is no validation
    error. *)
Lemma departure_time_malformed_is_unhandled :
  ¬ (∀ who q db value,
       q !! "departure_time"%string = Some value →
       strptime_Ymd value = None →
       is_validation_error (FlightViewSet.list who q db).1 = true)
  ∧ FlightViewSet.list AnonymousUser Sample.on_abc Sample.airport_db
      = (Raise ValueError, Sample.airport_db)
  ∧ (∃ qs, FlightViewSet.list AnonymousUser Sample.on_nothing
             Sample.airport_db
           = (Reply HTTP_200_OK (Data qs), Sample.airport_db)
           ∧ is_Some (qs !! 5) ∧ is_Some (qs !! 6)).
Proof.
  split; [|split].
  - intros H.
    specialize (H AnonymousUser Sample.on_abc Sample.airport_db
                  "abc"%string eq_refl eq_refl).
    vm_compute in H. discriminate.
  - reflexivity.
  - eexists. split; [reflexivity|]. split; vm_compute; eauto.
Qed.

Lemma truthy_Some v s : truthy v = Some s → v = Some s ∧ s ≠ EmptyString.
Proof.
  unfold truthy. destruct v as [s'|]; [|done].
  case_bool_decide; [done|]. by intros [= ->].
Qed.

Lemma annotate_filter_date db d (qs : gmap Z Row) pk r :
  annotate db
    (filter (λ kr, date (departure_time (flight_of kr.2)) = d) qs) !! pk
    = Some r
  ↔ annotate db qs !! pk = Some r
    ∧ date (departure_time (flight_of r)) = d.
Proof.
  rewrite !annotate_lookup. setoid_rewrite map_lookup_filter_Some. split.
  - intros (r0 & [H1 H2] & ->). split; [eauto|done].
  - intros [(r0 & H1 & ->) H2]. eauto.
Qed.

(** C8, amended: a non-empty [departure_time] that [strptime] accepts
    selects, among the flights the request would return without the
    parameter, exactly those whose departure timestamp has that date,
    whatever the time of day; an empty value filters nothing; a
    non-empty value that [strptime] refuses makes [get_queryset] raise
    [ValueError], which the view does not catch: the list request ends in
    a server error and not in a validation error. *)
Theorem departure_time_filter (action : Action) (q : gmap string string)
  (db : DB) (value : string) :
  q !! "departure_time"%string = Some value →
  let rest := delete "departure_time"%string q in
  (value = EmptyString →
     get_queryset action q db = get_queryset action rest db)
  ∧ (∀ d, value ≠ EmptyString → strptime_Ymd value = Some d →
       match get_queryset action q db, get_queryset action rest db with
       | inr qs, inr qs0 =>
           ∀ pk r, qs !! pk = Some r ↔
                   qs0 !! pk = Some r
                   ∧ date (departure_time (flight_of r)) = d
       | inl e, inl e0 => e = e0
       | _, _ => False
       end)
  ∧ (value ≠ EmptyString → strptime_Ymd value = None →
       get_queryset action q db = inl ValueError
       ∧ ∀ who, FlightViewSet.list who q db = (Raise ValueError, db)
                ∧ status_code (FlightViewSet.list who q db).1
                  = HTTP_500_INTERNAL_SERVER_ERROR
                ∧ is_validation_error (FlightViewSet.list who q db).1
                  = false).
Proof.
  intros Hv rest.
  assert (rest !! "route"%string = q !! "route"%string) as Hroute
    by (unfold rest; by rewrite lookup_delete_ne).
  assert (rest !! "departure_time"%string = None) as Hnone
    by (unfold rest; by rewrite lookup_delete_eq).
  split; [|split].
  - intros ->. unfold get_queryset.
    rewrite Hroute, Hnone, Hv. done.
  - intros d Hne Hd. unfold get_queryset.
    rewrite Hroute, Hnone, Hv. simpl.
    rewrite bool_decide_eq_false_2 by done.
    destruct (truthy (q !! "route"%string)) as [rp|]; simpl;
      [destruct (params_to_ints rp) as [e|ids]; simpl; [done|]|];
      rewrite Hd; simpl;
      intros pk r; destruct action;
      first [apply annotate_filter_date | apply map_lookup_filter_Some].
  - intros Hne Hd.
    assert (∀ a, get_queryset a q db = inl ValueError) as Hraise.
    { intros a. unfold get_queryset. rewrite Hv. simpl.
      rewrite bool_decide_eq_false_2 by done.
      destruct (truthy (q !! "route"%string)) as [rp|]; simpl;
        [destruct (params_to_ints rp) as [e|ids] eqn:Hp; simpl|];
        rewrite ?Hd; try done.
      unfold params_to_ints in Hp. by destruct (mapM int _); simplify_eq. }
    split; [apply Hraise|]. intros who.
    assert (FlightViewSet.list who q db = (Raise ValueError, db)) as ->.
    { unfold FlightViewSet.list, dispatch.
      assert (check_permissions FlightViewSet.permission_classes GET who
              = true) as -> by done.
      by rewrite Hraise. }
    done.
Qed.

Lemma departure_time_filter_witness :
  match get_queryset list_ Sample.on_first_of_march Sample.airport_db,
        get_queryset list_
          (delete "departure_time"%string Sample.on_first_of_march)
          Sample.airport_db with
  | inr qs, inr qs0 =>
      ∀ pk r, qs !! pk = Some r ↔
              qs0 !! pk = Some r
              ∧ date (departure_time (flight_of r))
                = {| year := 2024; month := 3; day := 1 |}
  | inl e, inl e0 => e = e0
  | _, _ => False
  end.
Proof.
  apply (departure_time_filter list_ Sample.on_first_of_march
           Sample.airport_db "2024-03-01"%string eq_refl);
    [discriminate | reflexivity].
Defined.
End flights.

Section orders.
Import Rest Py Airport.
Import OrderSerializer.

Lemma slot_taken_spec db t :
  slot_taken db t = false ↔
  ∀ k tk, tickets db !! k = Some tk →
          Spec.slot t ≠ (flight tk, row tk, seat tk).
Proof.
  unfold slot_taken. rewrite bool_decide_eq_false.
  rewrite map_Exists_lookup. unfold same_slot, Spec.slot. split.
  - intros H k tk Hk Heq. apply H. exists k, tk. split; [done|].
    by simplify_eq.
  - intros H (k & tk & Hk & H1 & H2 & H3). apply (H k tk Hk). congruence.
Qed.

Lemma validate_ticket_valid db t :
  if Spec.ticket_valid db t then validate_ticket db t = inr ()
  else ∃ field, validate_ticket db t = inl (ValidationError field).
Proof.
  unfold Spec.ticket_valid, validate_ticket, in_range.
  destruct (flights db !! flight_id t) as [f|]; simpl; [|eauto].
  destruct (airplanes db !! airplane f) as [a|]; simpl; [|eauto].
  destruct (slot_taken db t) eqn:Hs.
  - assert (bool_decide (∀ k tk, tickets db !! k = Some tk →
              Spec.slot t ≠ (flight tk, row tk, seat tk)) = false) as ->.
    { apply bool_decide_eq_false. rewrite <- slot_taken_spec. congruence. }
    rewrite andb_false_r.
    repeat (case_match; eauto).
  - rewrite (bool_decide_eq_true_2 _ (proj1 (slot_taken_spec db t) Hs)).
    rewrite andb_true_r.
    do 2 case_bool_decide; simpl;
      repeat match goal with
             | |- context [?x <=? ?y] => destruct (Z.leb_spec x y); simpl
             end; eauto; lia.
Qed.

Lemma ticket_valid_insert_ticket db k t :
  Spec.ticket_valid (insert_ticket k db) t = true ↔
  Spec.ticket_valid db t = true ∧ Spec.slot t ≠ (flight k, row k, seat k).
Proof.
  unfold Spec.ticket_valid. simpl.
  destruct (flights db !! flight_id t) as [f|]; [|by split; [|intros []]].
  destruct (airplanes db !! airplane f) as [a|]; [|by split; [|intros []]].
  rewrite !andb_true_iff, !bool_decide_eq_true.
  split.
  - intros [Hr Hfree]. split; [split; [done|]|].
    + intros k' tk Hk'. apply (Hfree k').
      rewrite lookup_insert_ne; [done|].
      intros <-. by rewrite next_pk_fresh in Hk'.
    + apply (Hfree (next_pk (tickets db))). by rewrite lookup_insert_eq.
  - intros [[Hr Hfree] Hne]. split; [done|].
    intros k' tk Hk'.
    destruct (decide (next_pk (tickets db) = k')) as [<-|Hk].
    + rewrite lookup_insert_eq in Hk'. by simplify_eq.
    + rewrite lookup_insert_ne in Hk' by done. eauto.
Qed.

Lemma request_valid_spec db ts :
  Spec.request_valid db ts = true ↔
  Forall (λ t, Spec.ticket_valid db t = true) ts ∧ NoDup (Spec.slot <$> ts).
Proof.
  unfold Spec.request_valid.
  rewrite andb_true_iff, bool_decide_eq_true, forallb_forall, Forall_forall.
  by setoid_rewrite <- list_elem_of_In.
Qed.

Lemma create_tickets_fail order_pk ts db :
  ¬ (Forall (λ t, Spec.ticket_valid db t = true) ts
     ∧ NoDup (Spec.slot <$> ts)) →
  ∃ field, create_tickets order_pk ts db = inl (ValidationError field).
Proof.
  revert db. induction ts as [|t ts IH]; intros db Hbad.
  - destruct Hbad. split; constructor.
  - simpl. pose proof (validate_ticket_valid db t) as Hv.
    destruct (Spec.ticket_valid db t) eqn:Ht.
    + rewrite Hv. simpl. apply IH. intros [Hall Hnd].
      apply Hbad. rewrite fmap_cons, NoDup_cons. split; [|split; [|done]].
      * constructor; [done|].
        eapply Forall_impl; [exact Hall|].
        intros t' Ht'. by apply ticket_valid_insert_ticket in Ht' as [? _].
      * intros Hin. apply list_elem_of_fmap in Hin as (t' & Heq & Hin).
        rewrite Forall_forall in Hall.
        apply Hall, ticket_valid_insert_ticket in Hin as [_ Hne].
        apply Hne. by rewrite <- Heq.
    + destruct Hv as [field ->]. simpl. eauto.
Qed.

Lemma create_tickets_ok order_pk ts db :
  Forall (λ t, Spec.ticket_valid db t = true) ts →
  NoDup (Spec.slot <$> ts) →
  ∃ db', create_tickets order_pk ts db = inr db'
         ∧ airplanes db' = airplanes db ∧ flights db' = flights db
         ∧ orders db' = orders db
         ∧ Spec.tickets_persisted order_pk ts (tickets db) (tickets db').
Proof.
  revert db. induction ts as [|t ts IH]; intros db Hall Hnd.
  - exists db. unfold Spec.tickets_persisted.
    do 5 (split; [done|]). split; [|split; [by left|simpl; lia]].
    intros t Hin. by apply elem_of_nil in Hin.
  - apply Forall_cons in Hall as [Ht Hall].
    rewrite fmap_cons in Hnd. apply NoDup_cons in Hnd as [Hnew Hnd].
    simpl. pose proof (validate_ticket_valid db t) as Hv.
    rewrite Ht in Hv. rewrite Hv. simpl.
    set (row_t := {| row := row_data t; seat := seat_data t;
                     flight := flight_id t; order := order_pk |}).
    destruct (IH (insert_ticket row_t db)) as
      (db' & -> & Ha & Hf & Ho & Hkeep & Hmade & Honly & Hsize); [|done|].
    { rewrite Forall_forall in Hall. apply Forall_forall. intros t' Hin.
      apply ticket_valid_insert_ticket. split; [by apply Hall|].
      intros Heq. apply Hnew. apply list_elem_of_fmap. exists t'.
      split; [|done]. by rewrite Heq. }
    simpl in *. pose proof (next_pk_fresh (tickets db)) as Hfresh.
    exists db'. repeat split; try done.
    + intros k tk Hk. apply Hkeep. rewrite lookup_insert_ne; [done|].
      intros <-. congruence.
    + intros t' [->|Hin]%elem_of_cons.
      * exists (next_pk (tickets db)). split; [done|].
        apply Hkeep. by rewrite lookup_insert_eq.
      * destruct (Hmade t' Hin) as (k & Hnone & Hsome).
        exists k. split; [|done].
        destruct (decide (next_pk (tickets db) = k)) as [<-|Hne]; [done|].
        by rewrite lookup_insert_ne in Hnone.
    + intros k tk Hk. destruct (Honly k tk Hk) as [Hold|(t' & Hin & ->)].
      * destruct (decide (next_pk (tickets db) = k)) as [<-|Hne].
        -- rewrite lookup_insert_eq in Hold. simplify_eq.
           right. exists t. split; [left|done].
        -- rewrite lookup_insert_ne in Hold by done. by left.
      * right. exists t'. split; [by right|done].
    + rewrite Hsize, map_size_insert_None by done. simpl. lia.
Qed.

Lemma order_create_outcome (u : User) (data : Payload) (now : DateTime)
  (db : DB) :
  if Spec.request_valid db (tickets_data data) then
    ∃ pk db',
      OrderViewSet.create (Account u) data now db
        = (Reply HTTP_201_CREATED (Data pk), db')
      ∧ orders db !! pk = None
      ∧ orders db' = <[pk := {| created_at := now; user := id u |}]> (orders db)
      ∧ airplanes db' = airplanes db ∧ flights db' = flights db
      ∧ Spec.tickets_persisted pk (tickets_data data) (tickets db) (tickets db')
  else
    ∃ field, OrderViewSet.create (Account u) data now db
             = (Raise (ValidationError field), db).
Proof.
  unfold OrderViewSet.create, dispatch. simpl.
  unfold save, atomic, OrderSerializer.create. simpl.
  set (pk := next_pk (orders db)).
  set (o := {| created_at := now; user := id u |}).
  destruct (Spec.request_valid db (tickets_data data)) eqn:Hvalid.
  - apply request_valid_spec in Hvalid as [Hall Hnd].
    destruct (create_tickets_ok pk (tickets_data data) (insert_order pk o db))
      as (db' & -> & Ha & Hf & Ho & Hp); [done..|].
    exists pk, db'. simpl. simpl in Ho. rewrite Ho.
    split; [done|]. split; [apply next_pk_fresh|]. done.
  - destruct (create_tickets_fail pk (tickets_data data) (insert_order pk o db))
      as (field & ->).
    + intros [Hall Hnd].
      assert (Spec.request_valid db (tickets_data data) = true)
        by (apply request_valid_spec; split; [exact Hall | exact Hnd]).
      congruence.
    + simpl. eauto.
Qed.

(** C1: an order request with an invalid ticket (unknown flight, row or
    seat outside the airplane, a slot taken in the store or asked for twice
    in the request) fails with a validation error naming a field and leaves
    the store as it was; a request whose tickets are all valid persists the
    order and, for that order, one ticket per ticket of the request. *)
Theorem order_creation_atomic (u : User) (data : Payload) (now : DateTime)
  (db : DB) :
  (Spec.request_valid db (tickets_data data) = false →
     ∃ field, OrderViewSet.create (Account u) data now db
              = (Raise (ValidationError field), db))
  ∧ (Spec.request_valid db (tickets_data data) = true →
     ∃ pk db',
       OrderViewSet.create (Account u) data now db
         = (Reply HTTP_201_CREATED (Data pk), db')
       ∧ orders db !! pk = None
       ∧ orders db'
         = <[pk := {| created_at := now; user := id u |}]> (orders db)
       ∧ airplanes db' = airplanes db ∧ flights db' = flights db
       ∧ Spec.tickets_persisted pk (tickets_data data)
           (tickets db) (tickets db')).
Proof.
  pose proof (order_create_outcome u data now db) as H.
  split; intros Hv; by rewrite Hv in H.
Qed.

Lemma order_creation_atomic_witness :
  (∃ field,
     OrderViewSet.create (Account Sample.customer) Sample.duplicate_order
       (Sample.at_ 2024 2 3 8) Sample.airport_db
     = (Raise (ValidationError field), Sample.airport_db))
  ∧ (∃ pk db',
       OrderViewSet.create (Account Sample.customer) Sample.good_order
         (Sample.at_ 2024 2 3 8) Sample.airport_db
       = (Reply HTTP_201_CREATED (Data pk), db')
       ∧ size (tickets db') = 3%nat).
Proof.
  split.
  - apply (order_creation_atomic Sample.customer Sample.duplicate_order).
    vm_compute. reflexivity.
  - destruct (proj2 (order_creation_atomic Sample.customer Sample.good_order
                       (Sample.at_ 2024 2 3 8) Sample.airport_db) eq_refl)
      as (pk & db' & Hc & _ & _ & _ & _ & _ & _ & _ & Hsize).
    exists pk, db'. split; [exact Hc|]. rewrite Hsize. reflexivity.
Defined.

Lemma order_get_queryset_lookup (u : User) (db : DB) qs pk r :
  OrderViewSet.get_queryset (Account u) db = inr qs →
  qs !! pk = Some r ↔
  ∃ o, orders db !! pk = Some o ∧ user o = id u
       ∧ r = {| OrderViewSet.order_of := o;
                OrderViewSet.tickets_of :=
                  filter (λ kt, order kt.2 = pk) (tickets db) |}.
Proof.
  intros [= <-]. rewrite map_lookup_filter_Some. unfold OrderViewSet.queryset.
  rewrite map_lookup_imap, bind_Some. simpl. split.
  - intros [(o & Ho & [= <-]) Hu]. eauto.
  - intros (o & Ho & Hu & ->). eauto.
Qed.

(** C3: a list or retrieve request of an authenticated user returns only
    orders of the store whose user is the caller, and all of them; the
    order of another user is answered as not found; an order the caller
    creates is stored under a new key with the caller as its user, whatever
    the payload says. *)
Theorem order_ownership_isolation (u : User) (db : DB) :
  (∃ qs, OrderViewSet.list (Account u) db = (Reply HTTP_200_OK (Data qs), db)
         ∧ (∀ pk r, qs !! pk = Some r →
              orders db !! pk = Some (OrderViewSet.order_of r)
              ∧ user (OrderViewSet.order_of r) = id u)
         ∧ (∀ pk o, orders db !! pk = Some o → user o = id u →
              is_Some (qs !! pk)))
  ∧ (∀ pk r db',
       OrderViewSet.retrieve (Account u) pk db
         = (Reply HTTP_200_OK (Data r), db') →
       orders db !! pk = Some (OrderViewSet.order_of r)
       ∧ user (OrderViewSet.order_of r) = id u)
  ∧ (∀ pk o, orders db !! pk = Some o → user o ≠ id u →
       OrderViewSet.retrieve (Account u) pk db = (Raise Http404, db))
  ∧ (∀ data now pk db',
       OrderViewSet.create (Account u) data now db
         = (Reply HTTP_201_CREATED (Data pk), db') →
       orders db !! pk = None
       ∧ orders db' !! pk = Some {| created_at := now; user := id u |}
       ∧ ∀ k, k ≠ pk → orders db' !! k = orders db !! k).
Proof.
  split; [|split; [|split]].
  - eexists. split; [reflexivity|]. split.
    + intros pk r Hr.
      eapply order_get_queryset_lookup in Hr as (o & Ho & Hu & ->); done.
    + intros pk o Ho Hu. eexists.
      eapply order_get_queryset_lookup; [done|]. eauto.
  - intros pk r db' H. unfold OrderViewSet.retrieve, dispatch in H.
    simpl in H. unfold get_object_or_404 in H.
    destruct (filter _ (OrderViewSet.queryset db) !! pk) as [r'|] eqn:Hr;
      simplify_eq.
    eapply order_get_queryset_lookup in Hr as (o & Ho & Hu & ->); done.
  - intros pk o Ho Hu. unfold OrderViewSet.retrieve, dispatch. simpl.
    unfold get_object_or_404.
    destruct (filter _ (OrderViewSet.queryset db) !! pk) as [r'|] eqn:Hr;
      [|done].
    eapply order_get_queryset_lookup in Hr as (o' & Ho' & Hu' & ->); [|done].
    congruence.
  - intros data now pk db' Hc.
    pose proof (order_create_outcome u data now db) as H.
    destruct (Spec.request_valid db (tickets_data data)).
    + destruct H as (pk' & db'' & Hc' & Hnew & Ho & _).
      rewrite Hc' in Hc. simplify_eq. split; [done|]. rewrite Ho.
      split; [by rewrite lookup_insert_eq|].
      intros k Hk. by rewrite lookup_insert_ne.
    + destruct H as (field & Hc'). congruence.
Qed.

Lemma order_ownership_isolation_witness :
  let reply := OrderViewSet.create (Account Sample.customer)
                 Sample.good_order (Sample.at_ 2024 2 3 8)
                 Sample.airport_db in
  OrderViewSet.retrieve (Account Sample.customer) 2 Sample.airport_db
    = (Raise Http404, Sample.airport_db)
  ∧ reply.1 = Reply HTTP_201_CREATED (Data 3)
  ∧ user_data Sample.good_order = Some 11
  ∧ user <$> orders reply.2 !! 3 = Some 10.
Proof.
  intros reply.
  destruct (order_ownership_isolation Sample.customer Sample.airport_db)
    as (_ & _ & Hother & Hcreate).
  split; [|split; [|split]].
  - apply (Hother 2 {| created_at := Sample.at_ 2024 2 2 8; user := 11 |});
      [reflexivity | discriminate].
  - vm_compute. reflexivity.
  - reflexivity.
  - assert (reply = (Reply HTTP_201_CREATED (Data 3), reply.2)) as E
      by (vm_compute; reflexivity).
    destruct (Hcreate _ _ _ _ E) as (_ & -> & _). reflexivity.
Defined.
End orders.

Section staff_only.
Import Rest Py Airport.

Lemma IsAdminUser_refuses (m : Method) (who : Principal) :
  staff who = false → check_permissions [IsAdminUser] m who = false.
Proof. intros H. unfold check_permissions. simpl. by rewrite H. Qed.

Lemma IsAdminUser_passes (m : Method) (who : Principal) :
  staff who = true → check_permissions [IsAdminUser] m who = true.
Proof. intros H. unfold check_permissions. simpl. by rewrite H. Qed.

Lemma staff_only_view {R} (is_valid : gmap Z R → R → bool)
  (who : Principal) (c : Call) (t : gmap Z R) :
  staff who = false →
  model_view_set [IsAdminUser] is_valid who c t
  = (Raise (permission_denied who), t).
Proof.
  intros H. unfold model_view_set.
  by rewrite dispatch_refused by by apply IsAdminUser_refuses.
Qed.

(** C5 as stated fails for Crew: a caller who is authenticated and not
    staff lists the crews. *)
Lemma crew_list_open_to_customers :
  ¬ (∀ is_valid who c t,
       staff who = false → rejected (CrewViewSet.view is_valid who c t).1)
  ∧ CrewViewSet.view (λ _ _, true) (Account Sample.customer) list_call
      Sample.crews
    = (Reply HTTP_200_OK (Data Sample.crews), Sample.crews).
Proof.
  split; [|reflexivity].
  intros H.
  destruct (H (λ _ _, true) (Account Sample.customer) list_call
              Sample.crews eq_refl) as [E|E]; vm_compute in E; discriminate.
Qed.

(** C5, amended: on AirplaneType, Country and City every operation is
    refused, with the store unchanged, to a caller who is not staff, so an
    operation that succeeds was asked by staff, and staff reaches every
    operation.  Crew differs: there an unauthenticated caller is refused
    every operation and a caller who is not staff every write, with the
    store unchanged, while staff reaches every operation and every
    authenticated caller the reads. *)
Theorem admin_only_resources (who : Principal) :
  (∀ is_valid c t,
     (staff who = false →
        rejected (AirplaneTypeViewSet.view is_valid who c t).1
        ∧ (AirplaneTypeViewSet.view is_valid who c t).2 = t)
     ∧ (is_success (status_code (AirplaneTypeViewSet.view is_valid who c t).1)
        = true → staff who = true)
     ∧ (staff who = true →
        AirplaneTypeViewSet.view is_valid who c t = handle is_valid c t))
  ∧ (∀ is_valid c t,
     (staff who = false →
        rejected (CountryViewSet.view is_valid who c t).1
        ∧ (CountryViewSet.view is_valid who c t).2 = t)
     ∧ (is_success (status_code (CountryViewSet.view is_valid who c t).1)
        = true → staff who = true)
     ∧ (staff who = true →
        CountryViewSet.view is_valid who c t = handle is_valid c t))
  ∧ (∀ is_valid c t,
     (staff who = false →
        rejected (CityViewSet.view is_valid who c t).1
        ∧ (CityViewSet.view is_valid who c t).2 = t)
     ∧ (is_success (status_code (CityViewSet.view is_valid who c t).1)
        = true → staff who = true)
     ∧ (staff who = true →
        CityViewSet.view is_valid who c t = handle is_valid c t))
  ∧ (∀ is_valid c t,
     (is_authenticated who = false ∨
      (staff who = false ∧ SAFE_METHODS (method_of (action_of c)) = false) →
        rejected (CrewViewSet.view is_valid who c t).1
        ∧ (CrewViewSet.view is_valid who c t).2 = t)
     ∧ (is_success (status_code (CrewViewSet.view is_valid who c t).1) = true →
        SAFE_METHODS (method_of (action_of c)) = false → staff who = true)
     ∧ (staff who = true →
        CrewViewSet.view is_valid who c t = handle is_valid c t)
     ∧ (is_authenticated who = true →
        SAFE_METHODS (method_of (action_of c)) = true →
        CrewViewSet.view is_valid who c t = handle is_valid c t)).
Proof.
  assert (∀ R (is_valid : gmap Z R → R → bool) c t,
    (staff who = false →
       rejected (model_view_set [IsAdminUser] is_valid who c t).1
       ∧ (model_view_set [IsAdminUser] is_valid who c t).2 = t)
    ∧ (is_success (status_code
         (model_view_set [IsAdminUser] is_valid who c t).1) = true →
       staff who = true)
    ∧ (staff who = true →
       model_view_set [IsAdminUser] is_valid who c t = handle is_valid c t))
    as Hadmin.
  { intros R is_valid c t. split; [|split].
    - intros H. rewrite staff_only_view by done.
      split; [apply permission_denied_rejected | done].
    - destruct (staff who) eqn:Hs; [done|].
      rewrite staff_only_view by done. simpl.
      unfold permission_denied. by destruct (is_authenticated who).
    - intros H. unfold model_view_set.
      by rewrite dispatch_passed by by apply IsAdminUser_passes. }
  split; [|split; [|split]]; try (intros; apply Hadmin).
  intros is_valid c t. unfold CrewViewSet.view, model_view_set, dispatch.
  unfold check_permissions, CrewViewSet.permission_classes. simpl.
  split; [|split; [|split]].
  - intros [Ha | [Hs Hm]].
    + assert (staff who = false) as -> by (by destruct who).
      rewrite Ha, andb_false_r. simpl.
      split; [apply permission_denied_rejected | done].
    + rewrite Hs, Hm. simpl.
      split; [apply permission_denied_rejected | done].
  - intros Hok Hm. rewrite Hm in Hok. simpl in Hok.
    destruct (staff who); [done|]. simpl in Hok.
    unfold permission_denied in Hok. by destruct (is_authenticated who).
  - intros ->. by rewrite orb_true_r.
  - by intros -> ->.
Qed.

Lemma admin_only_resources_witness :
  rejected (CountryViewSet.view (λ _ _, true) (Account Sample.customer)
              (create_call {| country_name := "Utopia" |}) ∅).1
  ∧ rejected (CrewViewSet.view (λ _ _, true) (Account Sample.customer)
                (destroy_call 1) Sample.crews).1
  ∧ (CrewViewSet.view (λ _ _, true) (Account Sample.customer)
       (destroy_call 1) Sample.crews).2 = Sample.crews.
Proof.
  destruct (admin_only_resources (Account Sample.customer))
    as (_ & Hcountry & _ & Hcrew).
  split.
  - apply Hcountry. reflexivity.
  - apply Hcrew. right. split; reflexivity.
Defined.
End staff_only.

Section chat.
Import Rest Py Chat.
Import ChatSupportViewSet (permission_classes, queryset, get_queryset,
  get_object, get_message, set_user_list, create_message, update_message,
  delete_message, connect_support_to_chat, disconnect_user_from_chat).

Lemma db_eta (db : DB) : {| chats := chats db; messages := messages db |} = db.
Proof. by destruct db. Qed.

Lemma chat_eta (c : ChatSupport) :
  {| enabled := enabled c; is_support := is_support c;
     author_created := author_created c; user_list := user_list c |} = c.
Proof. by destruct c. Qed.

(** The class-level permission: every action without permission classes
    of its own is refused to a caller who is not staff. *)
Lemma chat_permission_staff (m : Method) (who : Principal) :
  check_permissions permission_classes m who = staff who.
Proof. unfold check_permissions. simpl. apply andb_true_r. Qed.

Lemma queryset_enabled db pk c :
  queryset db !! pk = Some c ↔ chats db !! pk = Some c ∧ enabled c = true.
Proof. unfold queryset. by rewrite map_lookup_filter_Some. Qed.

Lemma get_queryset_customer (u : User) db pk c :
  is_staff u = false →
  get_queryset (Account u) db !! pk = Some c ↔
  chats db !! pk = Some c ∧ enabled c = true ∧ id u ∈ user_list c.
Proof.
  intros Hs. unfold get_queryset. simpl. rewrite Hs. simpl.
  rewrite map_lookup_filter_Some, queryset_enabled. simpl. tauto.
Qed.

Lemma get_queryset_staff (who : Principal) db pk c :
  staff who = true →
  get_queryset who db !! pk = Some c ↔
  chats db !! pk = Some c ∧ enabled c = true ∧ is_support c = true.
Proof.
  intros Hs. unfold get_queryset. rewrite Hs. simpl.
  rewrite map_lookup_filter_Some, queryset_enabled. simpl. tauto.
Qed.

Lemma get_queryset_within_enabled (who : Principal) db pk c :
  get_queryset who db !! pk = Some c →
  chats db !! pk = Some c ∧ enabled c = true.
Proof.
  unfold get_queryset.
  destruct (negb (staff who)); [|destruct (staff who)];
    rewrite ?map_lookup_filter_Some, queryset_enabled; tauto.
Qed.

(** What a staff caller sees: exactly the enabled threads flagged
    [is_support]. *)
Lemma chat_list_staff (who : Principal) db :
  staff who = true →
  ∃ qs, ChatSupportViewSet.list who db = (Reply HTTP_200_OK (Data qs), db)
        ∧ ∀ pk c, qs !! pk = Some c ↔
                  chats db !! pk = Some c ∧ enabled c = true
                  ∧ is_support c = true.
Proof.
  intros Hs. exists (get_queryset who db). split.
  - unfold ChatSupportViewSet.list.
    by rewrite dispatch_passed by by rewrite chat_permission_staff.
  - intros pk c. by apply get_queryset_staff.
Qed.

(** C4 fails on the code: [customer] belongs to the enabled chats 1 and 2,
    the branch of [get_queryset] for callers who are not staff selects
    exactly these two, and yet the list and retrieve requests are refused
    by the permission class of the viewset before that branch is
    reached. *)
Lemma chat_list_refused_to_member :
  staff (Account Sample.customer) = false
  ∧ ChatSupportViewSet.list (Account Sample.customer) Sample.chat_db
    = (Raise PermissionDenied, Sample.chat_db)
  ∧ ChatSupportViewSet.retrieve (Account Sample.customer) 1 Sample.chat_db
    = (Raise PermissionDenied, Sample.chat_db)
  ∧ dom (get_queryset (Account Sample.customer) Sample.chat_db)
    = ({[ 1; 2 ]} : gset Z).
Proof.
  split; [reflexivity|]. split; [reflexivity|]. split; [reflexivity|].
  vm_compute. reflexivity.
Qed.

(** To callers who are not staff every action under the permission classes
    of the viewset answers with a refusal and changes nothing. *)
Lemma chat_refused {A} (m : Method) (who : Principal)
  (h : DB → Response A * DB) (db : DB) :
  staff who = false →
  dispatch permission_classes m who h db
  = (Raise (permission_denied who), db).
Proof.
  intros H. apply dispatch_refused. by rewrite chat_permission_staff.
Qed.

Lemma get_message_author (u : User) message_pk db m :
  get_message (Account u) message_pk db = inr m ↔
  messages db !! message_pk = Some m ∧ user m = id u.
Proof.
  unfold get_message, get_object_or_404.
  destruct (filter _ (messages db) !! message_pk) as [m'|] eqn:E.
  - apply map_lookup_filter_Some in E as [E1 E2]. simpl in E2.
    split; [by intros [= <-]|]. intros [H1 H2]. congruence.
  - split; [done|]. intros [H1 H2].
    assert (filter (λ km, user km.2 = id u) (messages db) !! message_pk
            = Some m) as E' by (by apply map_lookup_filter_Some).
    congruence.
Qed.

Lemma get_message_stranger (u : User) message_pk db m :
  messages db !! message_pk = Some m → user m ≠ id u →
  get_message (Account u) message_pk db = inl Http404.
Proof.
  intros Hm Hu. unfold get_message, get_object_or_404.
  destruct (filter _ (messages db) !! message_pk) as [m'|] eqn:E; [|done].
  apply map_lookup_filter_Some in E as [E1 E2]. simpl in E2. congruence.
Qed.

(** What the two message actions do for staff: the lookup is by key and
    author, so a message of someone else is not found and stays as it is,
    and the author's own message is updated or deleted. *)
Lemma message_mutation_staff (u : User) (pk message_pk : Z)
  (data : MessageData) (db : DB) (m : ChatMessage) :
  is_staff u = true →
  messages db !! message_pk = Some m →
  (user m ≠ id u →
     update_message (Account u) pk message_pk data db = (Raise Http404, db)
     ∧ delete_message (Account u) pk message_pk db = (Raise Http404, db))
  ∧ (user m = id u →
     delete_message (Account u) pk message_pk db
       = (Reply HTTP_204_NO_CONTENT (Detail "Message deleted successfully."),
          with_messages (delete message_pk (messages db)) db)
     ∧ ∀ m', ChatMessageSerializerCreate.is_valid_partial db m data = inr m' →
         update_message (Account u) pk message_pk data db
         = (Reply HTTP_200_OK (Data m'),
            with_messages (<[message_pk := m']> (messages db)) db)).
Proof.
  intros Hs Hm. unfold update_message, delete_message.
  rewrite !dispatch_passed by by rewrite chat_permission_staff.
  split.
  - intros Hu. by rewrite (get_message_stranger u message_pk db m).
  - intros Hu.
    assert (get_message (Account u) message_pk db = inr m) as ->
      by by apply get_message_author.
    split; [done|]. by intros m' ->.
Qed.

(** C7 fails on the code: [customer] is no author of message 7, and the
    update and delete requests are answered with a refusal, status 403,
    where the claim has not-found; [customer] is the author of message 8,
    and the requests are refused as well, the message staying as it was. *)
Lemma message_mutation_refused_to_customer :
  staff (Account Sample.customer) = false
  ∧ delete_message (Account Sample.customer) 2 7 Sample.chat_db
    = (Raise PermissionDenied, Sample.chat_db)
  ∧ update_message (Account Sample.customer) 2 7 (Sample.says "x" 2)
      Sample.chat_db
    = (Raise PermissionDenied, Sample.chat_db)
  ∧ exception_handler PermissionDenied = HTTP_403_FORBIDDEN
  ∧ get_message (Account Sample.customer) 7 Sample.chat_db = inl Http404
  ∧ user <$> messages Sample.chat_db !! 8 = Some (id Sample.customer)
  ∧ delete_message (Account Sample.customer) 1 8 Sample.chat_db
    = (Raise PermissionDenied, Sample.chat_db)
  ∧ update_message (Account Sample.customer) 1 8 (Sample.says "x" 1)
      Sample.chat_db
    = (Raise PermissionDenied, Sample.chat_db).
Proof. repeat split; vm_compute; reflexivity. Qed.

Lemma connect_outcome (u : User) (pk : Z) (db : DB) (c : ChatSupport) :
  is_staff u = true → chats db !! pk = Some c →
  connect_support_to_chat (Account u) pk db
  = if bool_decide (id u ∈ user_list c)
    then (Reply HTTP_400_BAD_REQUEST
            (Detail "User already connected to the chat."), db)
    else (Reply HTTP_200_OK
            (Detail "Support is successfully connected to the chat."),
          set_user_list pk c ({[ id u ]} ∪ user_list c) db).
Proof.
  intros Hs Hc. unfold connect_support_to_chat, dispatch, check_permissions.
  simpl. rewrite Hs. simpl. unfold get_object_or_404. rewrite Hc.
  by case_bool_decide.
Qed.

Lemma disconnect_outcome (u : User) (pk : Z) (db : DB) (c : ChatSupport) :
  is_staff u = true → chats db !! pk = Some c →
  disconnect_user_from_chat (Account u) pk db
  = if bool_decide (id u ∈ user_list c)
    then (Reply HTTP_200_OK
            (Detail "Support is successfully deleted from the chat."),
          set_user_list pk c (user_list c ∖ {[ id u ]}) db)
    else (Reply HTTP_400_BAD_REQUEST (Detail "User not in chat."), db).
Proof.
  intros Hs Hc. unfold disconnect_user_from_chat, dispatch, check_permissions.
  simpl. rewrite Hs. simpl. unfold get_object_or_404. rewrite Hc.
  by case_bool_decide.
Qed.

Lemma set_user_list_lookup pk c ul db :
  chats (set_user_list pk c ul db) !! pk
  = Some {| enabled := enabled c; is_support := is_support c;
            author_created := author_created c; user_list := ul |}.
Proof. unfold set_user_list. simpl. by rewrite lookup_insert_eq. Qed.

Lemma set_user_list_back pk c ul ul' db :
  chats db !! pk = Some c → ul' = user_list c →
  set_user_list pk
    {| enabled := enabled c; is_support := is_support c;
       author_created := author_created c; user_list := ul |}
    ul' (set_user_list pk c ul db) = db.
Proof.
  intros Hc ->. unfold set_user_list, with_chats. simpl.
  rewrite insert_insert_eq, chat_eta, insert_id by done. apply db_eta.
Qed.

(** C6: for a staff caller and an existing chat, connect adds the caller
    and answers 200 when the caller is no member, and answers 400 leaving
    the store as it was when the caller is one; disconnect removes the
    caller and answers 200 when the caller is a member, and answers 400
    leaving the store as it was otherwise; each undoes the other. *)
Theorem chat_membership_strict (u : User) (pk : Z) (db : DB)
  (c : ChatSupport) :
  is_staff u = true → chats db !! pk = Some c →
  let connected := connect_support_to_chat (Account u) pk db in
  let disconnected := disconnect_user_from_chat (Account u) pk db in
  (id u ∉ user_list c →
     status_code connected.1 = HTTP_200_OK
     ∧ connected.2 = set_user_list pk c ({[ id u ]} ∪ user_list c) db
     ∧ (user_list <$> chats connected.2 !! pk)
       = Some ({[ id u ]} ∪ user_list c)
     ∧ status_code disconnected.1 = HTTP_400_BAD_REQUEST
     ∧ disconnected.2 = db
     ∧ (disconnect_user_from_chat (Account u) pk connected.2).2 = db)
  ∧ (id u ∈ user_list c →
     status_code connected.1 = HTTP_400_BAD_REQUEST
     ∧ connected.2 = db
     ∧ status_code disconnected.1 = HTTP_200_OK
     ∧ disconnected.2 = set_user_list pk c (user_list c ∖ {[ id u ]}) db
     ∧ (user_list <$> chats disconnected.2 !! pk)
       = Some (user_list c ∖ {[ id u ]})
     ∧ (connect_support_to_chat (Account u) pk disconnected.2).2 = db).
Proof.
  intros Hs Hc connected disconnected.
  unfold connected, disconnected.
  rewrite (connect_outcome u pk db c), (disconnect_outcome u pk db c) by done.
  split; intros Hin.
  - rewrite !bool_decide_eq_false_2 by done. simpl.
    rewrite lookup_insert_eq. simpl.
    do 5 (split; [done|]).
    erewrite disconnect_outcome; [|done|apply set_user_list_lookup].
    simpl. rewrite bool_decide_eq_true_2
      by (apply elem_of_union_l; by apply elem_of_singleton). simpl.
    apply set_user_list_back; [done|].
    apply set_eq. intros x.
    rewrite elem_of_difference, elem_of_union, elem_of_singleton.
    split; [tauto|]. intros Hx. split; [tauto|]. by intros ->.
  - rewrite !bool_decide_eq_true_2 by done. simpl.
    rewrite lookup_insert_eq. simpl.
    do 5 (split; [done|]).
    erewrite connect_outcome; [|done|apply set_user_list_lookup].
    simpl. rewrite bool_decide_eq_false_2
      by (rewrite elem_of_difference, elem_of_singleton; tauto). simpl.
    apply set_user_list_back; [done|].
    symmetry. by apply union_difference_singleton_L.
Qed.

Lemma chat_membership_strict_witness :
  let first := connect_support_to_chat (Account Sample.operator) 3
                 Sample.chat_db in
  let second := connect_support_to_chat (Account Sample.operator) 3 first.2 in
  status_code first.1 = HTTP_200_OK
  ∧ status_code second.1 = HTTP_400_BAD_REQUEST
  ∧ second.2 = first.2.
Proof.
  intros first second.
  pose (c := {| enabled := false; is_support := true;
                author_created := 10; user_list := {[ 10 ]} |}).
  pose (c' := {| enabled := false; is_support := true;
                 author_created := 10; user_list := {[ 20 ]} ∪ {[ 10 ]} |}).
  assert (chats Sample.chat_db !! 3 = Some c) as H3 by reflexivity.
  assert (chats first.2 !! 3 = Some c') as H3' by (vm_compute; reflexivity).
  destruct (chat_membership_strict Sample.operator 3 Sample.chat_db c
              eq_refl H3) as [Hnew _].
  destruct (chat_membership_strict Sample.operator 3 first.2 c'
              eq_refl H3') as [_ Hold].
  destruct Hnew as (H200 & _).
  { unfold c. simpl. intros H%elem_of_singleton. discriminate. }
  destruct Hold as (H400 & Hsame & _).
  { unfold c'. simpl. apply elem_of_union_l, elem_of_singleton. reflexivity. }
  split; [exact H200|]. split; [exact H400 | exact Hsame].
Defined.

(** C9: the answer of [create_message] and the store after it do not
    depend on the path parameter; a message that is created carries the
    chat, the text of the request body and the caller, and is the one row
    added to the store; a caller who passes the permission check and
    names an existing chat in the body gets the message created there,
    whatever chat the path names. *)
Theorem create_message_chat_from_body (who : Principal) (pk : Z)
  (data : MessageData) (now : DateTime) (db : DB) :
  (∀ pk', create_message who pk' data now db
          = create_message who pk data now db)
  ∧ (∀ m db', create_message who pk data now db
              = (Reply HTTP_200_OK (Data m), db') →
       support_msg_data data = Some (support_msg m)
       ∧ text_data data = Some (text m)
       ∧ user_id who = Some (user m)
       ∧ messages db !! next_pk (messages db) = None
       ∧ messages db' = <[next_pk (messages db) := m]> (messages db)
       ∧ chats db' = chats db)
  ∧ (∀ t c, check_permissions permission_classes POST who = true →
       data = {| text_data := Some t; support_msg_data := Some c |} →
       is_Some (chats db !! c) →
       ∃ m db', create_message who pk data now db
                = (Reply HTTP_200_OK (Data m), db')
                ∧ support_msg m = c).
Proof.
  split; [done|]. split.
  - intros m db' H. unfold create_message, dispatch in H.
    destruct (check_permissions permission_classes POST who); [|done].
    unfold ChatMessageSerializerCreate.is_valid in H.
    destruct (text_data data) as [t|]; [|done].
    destruct (support_msg_data data) as [c|]; [|done].
    case_bool_decide; [|done].
    destruct who as [|u]; [done|]. simplify_eq. simpl.
    repeat split; try done. apply next_pk_fresh.
  - intros t c Hp -> Hc. unfold create_message, dispatch. rewrite Hp.
    unfold ChatMessageSerializerCreate.is_valid. simpl.
    rewrite bool_decide_eq_true_2 by done.
    rewrite chat_permission_staff in Hp.
    destruct who as [|u]; [done|]. eauto.
Qed.

Lemma create_message_chat_from_body_witness :
  ∃ m db', create_message (Account Sample.operator) 1 (Sample.says "hi" 2)
             (Sample.at_ 2024 2 2 8) Sample.chat_db
           = (Reply HTTP_200_OK (Data m), db')
           ∧ support_msg m = 2.
Proof.
  apply (create_message_chat_from_body (Account Sample.operator) 1
           (Sample.says "hi" 2) (Sample.at_ 2024 2 2 8) Sample.chat_db)
    with (t := "hi"%string); [reflexivity | reflexivity |].
  vm_compute. eauto.
Defined.

(** C10 as stated fails: retrieving the disabled chat 3 without being
    authenticated is answered with a refusal, status 401, and not with
    not-found. *)
Lemma disabled_chat_refusal_before_lookup :
  ¬ (∀ who pk db c,
       chats db !! pk = Some c → enabled c = false →
       (ChatSupportViewSet.retrieve who pk db).1 = Raise Http404)
  ∧ enabled <$> chats Sample.chat_db !! 3 = Some false
  ∧ ChatSupportViewSet.retrieve AnonymousUser 3 Sample.chat_db
    = (Raise NotAuthenticated, Sample.chat_db)
  ∧ exception_handler NotAuthenticated = HTTP_401_UNAUTHORIZED.
Proof.
  split; [|by repeat split].
  intros H.
  specialize (H AnonymousUser 3 Sample.chat_db
                {| enabled := false; is_support := true;
                   author_created := 10; user_list := {[ 10 ]} |}
                eq_refl eq_refl).
  vm_compute in H. discriminate.
Qed.

Lemma get_object_disabled (who : Principal) (pk : Z) (db : DB)
  (c : ChatSupport) :
  chats db !! pk = Some c → enabled c = false →
  get_queryset who db !! pk = None ∧ get_object who pk db = inl Http404.
Proof.
  intros Hc He.
  assert (get_queryset who db !! pk = None) as Hnone.
  { destruct (get_queryset who db !! pk) as [c'|] eqn:E; [|done].
    apply get_queryset_within_enabled in E as [E1 E2]. congruence. }
  split; [done|]. unfold get_object, get_object_or_404. by rewrite Hnone.
Qed.

(** C10, amended: a chat with [enabled = False] is in the queryset of no
    caller; no list reply contains it; retrieve, update and delete on its
    key never succeed and never change the store, and answer not-found to
    every caller who passes the permission check of the viewset; the two
    membership actions, asked by staff, find it all the same and add or
    remove the caller. *)
Theorem disabled_chat_invisible (who : Principal) (pk : Z) (db : DB)
  (c : ChatSupport) :
  chats db !! pk = Some c → enabled c = false →
  get_queryset who db !! pk = None
  ∧ (∀ s qs db', ChatSupportViewSet.list who db = (Reply s (Data qs), db') →
       qs !! pk = None)
  ∧ (∀ serializer on_delete outcome,
       outcome = ChatSupportViewSet.retrieve who pk db
       ∨ outcome = ChatSupportViewSet.update serializer who pk db
       ∨ outcome = ChatSupportViewSet.destroy on_delete who pk db →
       is_success (status_code outcome.1) = false
       ∧ outcome.2 = db
       ∧ (staff who = true → outcome.1 = Raise Http404))
  ∧ (∀ m, check_permissions permission_classes m who = staff who)
  ∧ (∀ u, who = Account u → is_staff u = true →
       (id u ∉ user_list c →
          (connect_support_to_chat who pk db).1
          = Reply HTTP_200_OK
              (Detail "Support is successfully connected to the chat.")
          ∧ chats (connect_support_to_chat who pk db).2 !! pk
            = Some {| enabled := false; is_support := is_support c;
                      author_created := author_created c;
                      user_list := {[ id u ]} ∪ user_list c |})
       ∧ (id u ∈ user_list c →
          (disconnect_user_from_chat who pk db).1
          = Reply HTTP_200_OK
              (Detail "Support is successfully deleted from the chat.")
          ∧ chats (disconnect_user_from_chat who pk db).2 !! pk
            = Some {| enabled := false; is_support := is_support c;
                      author_created := author_created c;
                      user_list := user_list c ∖ {[ id u ]} |})).
Proof.
  intros Hc He.
  destruct (get_object_disabled who pk db c Hc He) as [Hnone H404].
  split; [done|]. split; [|split; [|split]].
  - intros s qs db' H. unfold ChatSupportViewSet.list, dispatch in H.
    destruct (check_permissions permission_classes GET who); by simplify_eq.
  - intros serializer on_delete outcome Ho.
    unfold ChatSupportViewSet.retrieve, ChatSupportViewSet.update,
      ChatSupportViewSet.destroy, dispatch in Ho.
    rewrite !chat_permission_staff, H404 in Ho.
    destruct (staff who) eqn:Hs.
    + by destruct Ho as [-> | [-> | ->]].
    + assert (outcome = (Raise (permission_denied who), db)) as ->
        by (by destruct Ho as [-> | [-> | ->]]).
      unfold permission_denied. by destruct (is_authenticated who).
  - intros m. apply chat_permission_staff.
  - intros u -> Hs.
    rewrite (connect_outcome u pk db c), (disconnect_outcome u pk db c)
      by done.
    split; intros Hin.
    + rewrite bool_decide_eq_false_2 by done. simpl.
      by rewrite lookup_insert_eq, He.
    + rewrite bool_decide_eq_true_2 by done. simpl.
      by rewrite lookup_insert_eq, He.
Qed.

Lemma disabled_chat_invisible_witness :
  ChatSupportViewSet.retrieve (Account Sample.operator) 3 Sample.chat_db
    = (Raise Http404, Sample.chat_db)
  ∧ (connect_support_to_chat (Account Sample.operator) 3 Sample.chat_db).1
    = Reply HTTP_200_OK
        (Detail "Support is successfully connected to the chat.").
Proof.
  pose (c := {| enabled := false; is_support := true;
                author_created := 10; user_list := {[ 10 ]} |}).
  destruct (disabled_chat_invisible (Account Sample.operator) 3
              Sample.chat_db c eq_refl eq_refl)
    as (_ & _ & Hstd & _ & Hmember).
  split.
  - destruct (Hstd (λ x, Some x) (λ _ ms, ms) _ (or_introl eq_refl))
      as (_ & Hdb & Hnf).
    specialize (Hnf eq_refl).
    destruct (ChatSupportViewSet.retrieve _ _ _) as [r d]. simpl in *.
    by rewrite Hdb, Hnf.
  - destruct (Hmember Sample.operator eq_refl eq_refl) as [Hconnect _].
    apply Hconnect. unfold c. simpl. intros H%elem_of_singleton.
    discriminate.
Defined.
End chat.

Section numbers.
Import Rest Py Text Airport.






Lemma strip_id (l : list ascii) (c : ascii) :
  is_space c = false →
  (∀ d, head l = Some d → is_space d = false) →
  strip (l ++ [c]) = l ++ [c].
Proof.
  intros Hc Hhead. unfold strip.
  assert (lstrip (l ++ [c]) = l ++ [c]) as ->.
  { destruct l as [|d l]; simpl; [by rewrite Hc|].
    by rewrite (Hhead d eq_refl). }
  rewrite reverse_app. simpl. rewrite Hc.
  by rewrite reverse_cons, reverse_involutive.
Qed.











Lemma split_chars_length (sep : ascii) (cs : list ascii) :
  List.length (split_chars sep cs)
  = S (List.length (filter (λ c, c = sep) cs)).
Proof.
  induction cs as [|c cs IH]; [done|]. simpl.
  rewrite filter_cons. case_bool_decide; case_decide; try done; simpl.
  - by rewrite IH.
  - destruct (split_chars sep cs) eqn:E; simpl in *; [done|]. done.
Qed.

Lemma split_chars_snoc (sep : ascii) (cs : list ascii) :
  ∃ p pieces, split_chars sep (cs ++ [sep]) = p :: pieces ++ [[]].
Proof.
  induction cs as [|c cs (p & pieces & IH)]; simpl.
  - rewrite bool_decide_eq_true_2 by done. by exists [], [].
  - case_bool_decide.
    + exists [], (p :: pieces). by rewrite IH.
    + rewrite IH. by exists (c :: p), pieces.
Qed.

Lemma int_empty_piece (pieces : list string) :
  EmptyString ∈ pieces → mapM int pieces = None.
Proof.
  intros H. apply mapM_None_2, Exists_exists. by exists EmptyString.
Qed.

(** The edges of [params_to_ints]: a value it accepts yields one number
    per comma and one more, so never an empty list; the empty string, a
    leading comma and a trailing comma raise [ValueError]. *)
Theorem params_to_ints_edges (s : string) :
  (∀ ids, params_to_ints s = inr ids →
     List.length ids
     = S (List.length (filter (λ c, c = ","%char) (list_ascii_of_string s))))
  ∧ params_to_ints "" = inl ValueError
  ∧ params_to_ints (String "," s) = inl ValueError
  ∧ params_to_ints (s +:+ ",") = inl ValueError.
Proof.
  split; [|split; [done|split]].
  - intros ids H. unfold params_to_ints in H.
    destruct (mapM int (split "," s)) as [ids'|] eqn:E; simplify_eq.
    apply length_mapM in E. rewrite <- E. unfold split.
    rewrite length_fmap. apply split_chars_length.
  - unfold params_to_ints. rewrite int_empty_piece; [done|].
    unfold split. simpl. by left.
  - unfold params_to_ints. rewrite int_empty_piece; [done|].
    unfold split.
    assert (list_ascii_of_string (s +:+ ",")
            = list_ascii_of_string s ++ [","%char]) as ->.
    { induction s as [|c s IH]; [done|]. simpl. by rewrite IH. }
    destruct (split_chars_snoc "," (list_ascii_of_string s))
      as (p & pieces & ->).
    rewrite fmap_cons, fmap_app. right. apply elem_of_app. right. by left.
Qed.

Lemma params_to_ints_edges_witness :
  List.length [1; 2; 3]
  = S (List.length
         (filter (λ c, c = ","%char) (list_ascii_of_string "1,2,3"))).
Proof. apply (proj1 (params_to_ints_edges "1,2,3")). reflexivity. Defined.
End numbers.

Section dates.
Import Rest Py Text Airport.

Lemma digit_digit_char (k : Z) : 0 ≤ k ≤ 9 → digit (digit_char k) = Some k.
Proof.
  intros H.
  assert (k = 0 ∨ k = 1 ∨ k = 2 ∨ k = 3 ∨ k = 4 ∨ k = 5 ∨ k = 6 ∨ k = 7
          ∨ k = 8 ∨ k = 9) as Hk by lia.
  destruct_or!; subst; reflexivity.
Qed.

Lemma parse_day_iso (dd : Z) :
  1 ≤ dd ≤ 31 →
  parse_day [digit_char (dd / 10); digit_char (dd mod 10)] = Some dd.
Proof.
  intros H.
  assert (Z.to_nat dd ∈ seq 1 31) as Hin by (apply elem_of_seq; lia).
  assert (dd = Z.of_nat (Z.to_nat dd)) as -> by lia.
  revert Hin. generalize (Z.to_nat dd). clear. intros n Hin.
  vm_compute in Hin.
  repeat (apply elem_of_cons in Hin as [->|Hin]; [vm_compute; reflexivity|]).
  by apply elem_of_nil in Hin.
Qed.

Lemma parse_month_day_iso (m dd : Z) :
  1 ≤ m ≤ 12 → 1 ≤ dd ≤ 31 →
  parse_month_day [digit_char (m / 10); digit_char (m mod 10); "-"%char;
                   digit_char (dd / 10); digit_char (dd mod 10)]
  = Some (m, dd).
Proof.
  intros Hm Hd. pose proof (parse_day_iso dd Hd) as Hday.
  assert (m = 1 ∨ m = 2 ∨ m = 3 ∨ m = 4 ∨ m = 5 ∨ m = 6 ∨ m = 7 ∨ m = 8
          ∨ m = 9 ∨ m = 10 ∨ m = 11 ∨ m = 12) as Hcases by lia.
  remember [digit_char (dd / 10); digit_char (dd mod 10)] as rest.
  destruct_or!; subst m; cbv -[parse_day]; by rewrite Hday.
Qed.

Lemma days_in_month_le (y m : Z) : days_in_month y m ≤ 31.
Proof. unfold days_in_month. repeat case_match; lia. Qed.

(** Every date of the calendar, written by [isoformat], is read back by
    the parse of the [departure_time] filter. *)
Lemma strptime_isoformat (d : Date) :
  is_date d → strptime_Ymd (isoformat d) = Some d.
Proof.
  unfold is_date, make_date. intros H.
  destruct (_ && _) eqn:E in H; [|done].
  repeat (apply andb_true_iff in E as [E ?]).
  pose proof (days_in_month_le (year d) (month d)).
  unfold strptime_Ymd, isoformat.
  rewrite list_ascii_of_string_of_list_ascii.
  rewrite bool_decide_eq_true_2 by done.
  rewrite !digit_digit_char by (Z.div_mod_to_equations; lia).
  rewrite parse_month_day_iso by lia.
  assert (1000 * (year d / 1000) + 100 * ((year d / 100) mod 10)
          + 10 * ((year d / 10) mod 10) + (year d) mod 10 = year d) as ->
    by (Z.div_mod_to_equations; lia).
  unfold make_date.
  rewrite !(proj2 (Z.leb_le _ _)) by lia. simpl. by destruct d.
Qed.

(** The flight filter accepts every date of the calendar in the form
    [isoformat] writes it, and then returns exactly the flights of the
    store, with their airplane, that depart on that date. *)
Theorem departure_time_accepts_iso_dates (action : Action) (db : DB)
  (d : Date) :
  is_date d →
  ∃ qs, FlightViewSet.get_queryset action
          {[ "departure_time"%string := isoformat d ]} db = inr qs
        ∧ ∀ pk, is_Some (qs !! pk) ↔
                ∃ f, flights db !! pk = Some f
                     ∧ is_Some (airplanes db !! airplane f)
                     ∧ date (departure_time f) = d.
Proof.
  intros Hd. unfold FlightViewSet.get_queryset.
  assert (isoformat d ≠ EmptyString) as Hne by done.
  rewrite (lookup_singleton_ne "departure_time"%string "route"%string)
    by done.
  rewrite lookup_singleton_eq. unfold truthy.
  rewrite bool_decide_eq_false_2 by done. simpl.
  rewrite (strptime_isoformat d Hd). simpl.
  eexists. split; [reflexivity|]. intros pk.
  assert (∀ m : gmap Z FlightViewSet.Row,
            is_Some (match action with
                     | list_ | retrieve => FlightViewSet.annotate db m
                     | _ => m
                     end !! pk) ↔ is_Some (m !! pk)) as ->.
  { intros m. destruct action; try done;
      unfold FlightViewSet.annotate; rewrite map_lookup_imap;
      destruct (m !! pk); simpl; split; intros [? ?]; eauto; done. }
  unfold is_Some. setoid_rewrite map_lookup_filter_Some.
  setoid_rewrite queryset_lookup. simpl. split.
  - intros (r & (f & a & Hf & Ha & ->) & Hdate). eauto 10.
  - intros (f & Hf & [a Ha] & Hdate). eexists. split; [eauto|done].
Qed.

Lemma departure_time_accepts_iso_dates_witness :
  isoformat {| year := 2024; month := 3; day := 2 |} = "2024-03-02"%string
  ∧ ∃ qs, FlightViewSet.get_queryset list_
            {[ "departure_time"%string := "2024-03-02"%string ]}
            Sample.airport_db = inr qs
          ∧ is_Some (qs !! 6).
Proof.
  split; [reflexivity|].
  destruct (departure_time_accepts_iso_dates list_ Sample.airport_db
              {| year := 2024; month := 3; day := 2 |} eq_refl)
    as (qs & Hq & Hpk).
  exists qs. split; [exact Hq|]. apply Hpk.
  eexists. split; [reflexivity|]. split; [by eexists|reflexivity].
Defined.
End dates.

Section more_flights.
Import Rest Py Airport.
Import FlightViewSet (Row, flight_of, airplane_of, free_tickets_seat,
  queryset, annotate, Count_tickets, get_queryset).

Lemma annotate_is_Some db (qs : gmap Z Row) pk :
  is_Some (annotate db qs !! pk) ↔ is_Some (qs !! pk).
Proof.
  unfold annotate. rewrite map_lookup_imap.
  destruct (qs !! pk); simpl; split; intros [? ?]; eauto; done.
Qed.

(** The two filters of the flight queryset act together: with parameters
    that parse, the flights returned are exactly the flights of the store
    (with their airplane) whose route is among the ids given and whose
    departure falls on the date given, a filter left out or left empty
    holding of every flight; the request raises exactly when a parameter
    does not parse. *)
Theorem flight_filters_conjunction (action : Action)
  (q : gmap string string) (db : DB) :
  let route_ids :=
    params_to_ints <$> truthy (q !! "route"%string) in
  let day := strptime_Ymd <$> truthy (q !! "departure_time"%string) in
  match get_queryset action q db with
  | inr qs =>
      route_ids ≠ Some (inl ValueError) ∧ day ≠ Some None
      ∧ ∀ pk, is_Some (qs !! pk) ↔
          ∃ f, flights db !! pk = Some f
               ∧ is_Some (airplanes db !! airplane f)
               ∧ (∀ ids, route_ids = Some (inr ids) → route f ∈ ids)
               ∧ (∀ d, day = Some (Some d) →
                       date (departure_time f) = d)
  | inl e =>
      e = ValueError
      ∧ ((∃ e', route_ids = Some (inl e')) ∨ day = Some None)
  end.
Proof.
  intros route_ids day. unfold route_ids, day, get_queryset.
  destruct (truthy (q !! "route"%string)) as [rp|]; simpl;
    [destruct (params_to_ints rp) as [e|ids] eqn:Hids; simpl|];
    [split; [|left; eauto];
     unfold params_to_ints in Hids; by destruct (mapM int _); simplify_eq
    |..];
    (destruct (truthy (q !! "departure_time"%string)) as [v|]; simpl;
     [destruct (strptime_Ymd v) as [d|]; simpl|]);
    try (split; [done|by right]);
    (split; [done|]; split; [done|]; intros pk;
     destruct action; rewrite ?annotate_is_Some; unfold is_Some;
     repeat setoid_rewrite map_lookup_filter_Some;
     setoid_rewrite queryset_lookup; simpl;
     (split;
      [intros (r & H); 
       repeat match goal with
              | H : ∃ _, _ |- _ => destruct H
              | H : _ ∧ _ |- _ => destruct H
              end; subst; simpl in *;
       eexists; repeat split; eauto; intros; simplify_eq; eauto
      |intros (f & Hf & [a Ha] & Hr & Hd);
       eexists; repeat split; eauto])).
Qed.


(** The number of free seats never exceeds the capacity of the airplane,
    and in a store whose tickets are consistent it is never negative,
    unless the airplane itself has a negative capacity: [rows] and
    [seats_in_row] are plain integers. *)
Theorem free_tickets_seat_bounds (action : Action) (q : gmap string string)
  (db : DB) (qs : gmap Z Row) (pk : Z) (r : Row) (n : Z) :
  get_queryset action q db = inr qs → qs !! pk = Some r →
  free_tickets_seat r = Some n →
  n ≤ Spec.capacity (airplane_of r)
  ∧ (Consistency.seats_consistent db →
     0 ≤ Spec.capacity (airplane_of r) → 0 ≤ n).
Proof.
  intros Hq Hr Hn.
  destruct (get_queryset_rows _ _ _ _ _ _ Hq Hr) as (Hf & Ha & Hfree).
  rewrite Hn in Hfree.
  assert (n = Spec.capacity (airplane_of r) - Count_tickets db pk) as ->
    by (destruct action; by simplify_eq).
  split; [unfold Count_tickets; lia|].
  intros [Hin Huniq] Hcap.
  set (a := airplane_of r) in *.
  set (T := filter (λ kt, flight kt.2 = pk) (tickets db)).
  set (idx := λ kt : Z * Ticket,
         Z.to_nat ((row kt.2 - 1) * seats_in_row a + (seat kt.2 - 1))).
  assert (∀ kt, kt ∈ map_to_list T →
            tickets db !! kt.1 = Some kt.2 ∧ flight kt.2 = pk
            ∧ 1 ≤ row kt.2 ≤ rows a ∧ 1 ≤ seat kt.2 ≤ seats_in_row a)
    as Hel.
  { intros [k t] [Hk Hp]%elem_of_map_to_list%map_lookup_filter_Some.
    simpl in *. split; [done|]. split; [done|].
    destruct (Hin k t Hk) as (f' & a' & Hf' & Ha' & Hrow & Hseat).
    assert (f' = flight_of r) as -> by congruence.
    assert (a' = a) as -> by congruence. done. }
  assert (NoDup (idx <$> map_to_list T)) as Hnd.
  { apply NoDup_fmap_2_strong; [|apply NoDup_map_to_list].
    intros [k t] [k' t'] H1 H2 Hidx.
    destruct (Hel _ H1) as (Hk & Hfl & Hrow & Hseat).
    destruct (Hel _ H2) as (Hk' & Hfl' & Hrow' & Hseat').
    simpl in *. unfold idx in Hidx. simpl in Hidx.
    assert (0 ≤ (row t - 1) * seats_in_row a) by nia.
    assert (0 ≤ (row t' - 1) * seats_in_row a) by nia.
    assert ((row t - 1) * seats_in_row a + (seat t - 1)
            = (row t' - 1) * seats_in_row a + (seat t' - 1)) as Hz by lia.
    assert (row t = row t') as Er.
    { destruct (Z.lt_trichotomy (row t) (row t')) as [Hlt|[Heq|Hgt]];
        [exfalso|done|exfalso].
      - assert ((row t - 1) * seats_in_row a + seats_in_row a
                ≤ (row t' - 1) * seats_in_row a) by nia. lia.
      - assert ((row t' - 1) * seats_in_row a + seats_in_row a
                ≤ (row t - 1) * seats_in_row a) by nia. lia. }
    assert (seat t = seat t') as Es by (rewrite Er in Hz; lia).
    assert (k = k') as -> by (eapply Huniq; eauto; congruence).
    congruence. }
  assert (List.length (idx <$> map_to_list T)
          ≤ List.length (seq 0 (Z.to_nat (rows a * seats_in_row a))))%nat
    as Hlen.
  { apply submseteq_length, NoDup_submseteq; [done|].
    intros i [kt [-> Hkt]]%list_elem_of_fmap.
    destruct (Hel _ Hkt) as (_ & _ & Hrow & Hseat).
    apply elem_of_seq. unfold idx.
    assert ((row kt.2 - 1) * seats_in_row a + seats_in_row a
            ≤ rows a * seats_in_row a) by nia.
    assert (0 ≤ (row kt.2 - 1) * seats_in_row a) by nia. lia. }
  rewrite length_fmap, length_seq, length_map_to_list in Hlen.
  unfold Count_tickets. fold T. unfold Spec.capacity in *. lia.
Qed.

Lemma free_tickets_seat_bounds_witness :
  ∃ r, get_queryset list_ ∅ Sample.airport_db
         ≫= (λ qs, get_object_or_404 qs 5) = inr r
       ∧ free_tickets_seat r = Some 5
       ∧ 5 ≤ Spec.capacity (airplane_of r).
Proof.
  eexists. split; [reflexivity|]. split; [reflexivity|].
  eapply (free_tickets_seat_bounds list_ ∅ Sample.airport_db _ 5);
    reflexivity.
Defined.
End more_flights.

Section bookings.
Import Rest Py Airport.
Import OrderSerializer.
Import FlightViewSet (Count_tickets).

Lemma Count_insert_ticket (k : Ticket) (db : DB) (pk : Z) :
  Count_tickets (insert_ticket k db) pk
  = Count_tickets db pk + (if decide (flight k = pk) then 1 else 0).
Proof.
  unfold Count_tickets. simpl.
  pose proof (next_pk_fresh (tickets db)) as Hfresh.
  case_decide as Hk.
  - rewrite map_filter_insert_True by done.
    rewrite map_size_insert_None.
    + rewrite Nat2Z.inj_succ. reflexivity.
    + apply map_lookup_filter_None. by left.
  - rewrite map_filter_insert_False by done.
    rewrite delete_id by done. symmetry. apply Z.add_0_r.
Qed.

Lemma create_tickets_count order_pk ts db db' pk :
  create_tickets order_pk ts db = inr db' →
  Count_tickets db' pk
  = Count_tickets db pk
    + Z.of_nat (List.length (filter (λ t, flight_id t = pk) ts)).
Proof.
  revert db. induction ts as [|t ts IH]; intros db H; simpl in H.
  - unfold mret, raises_ret in H. simplify_eq. rewrite filter_nil. simpl. lia.
  - destruct (validate_ticket db t); simpl in H; [done|].
    rewrite (IH _ H), Count_insert_ticket. simpl.
    rewrite filter_cons. repeat case_decide; simpl; try done; lia.
Qed.

Lemma create_tickets_frame order_pk ts db db' :
  create_tickets order_pk ts db = inr db' →
  airplanes db' = airplanes db ∧ flights db' = flights db
  ∧ orders db' = orders db.
Proof.
  revert db. induction ts as [|t ts IH]; intros db H; simpl in H.
  - unfold mret, raises_ret in H. by simplify_eq.
  - destruct (validate_ticket db t); simpl in H; [done|].
    by destruct (IH _ H) as (-> & -> & ->).
Qed.

Lemma order_create_inv (u : User) (data : Payload) (now : DateTime)
  (db db' : DB) (pk : Z) :
  OrderViewSet.create (Account u) data now db
    = (Reply HTTP_201_CREATED (Data pk), db') →
  pk = next_pk (orders db)
  ∧ create_tickets pk (tickets_data data)
      (insert_order pk {| created_at := now; user := id u |} db) = inr db'.
Proof.
  unfold OrderViewSet.create, dispatch. simpl.
  unfold save, atomic, OrderSerializer.create. simpl.
  destruct (create_tickets _ _ _) as [e|db''] eqn:E; simpl; intros H;
    by simplify_eq.
Qed.

(** Buying seats lowers the free seats of each flight by the number of
    tickets the order holds for it: with the same query parameters, the
    flight list after a successful order shows the same flights, each with
    its count reduced by that number, flights the order does not touch
    keeping theirs. *)
Theorem purchase_lowers_free_seats (u : User) (data : Payload)
  (now : DateTime) (db db' : DB) (order_pk : Z) (q : gmap string string) :
  OrderViewSet.create (Account u) data now db
    = (Reply HTTP_201_CREATED (Data order_pk), db') →
  let bought pk :=
    Z.of_nat (List.length
                (filter (λ t, flight_id t = pk) (tickets_data data))) in
  match FlightViewSet.get_queryset list_ q db,
        FlightViewSet.get_queryset list_ q db' with
  | inr qs, inr qs' =>
      ∀ pk, match qs !! pk, qs' !! pk with
            | Some r, Some r' =>
                FlightViewSet.flight_of r' = FlightViewSet.flight_of r
                ∧ FlightViewSet.airplane_of r' = FlightViewSet.airplane_of r
                ∧ ∃ n, FlightViewSet.free_tickets_seat r = Some n
                       ∧ FlightViewSet.free_tickets_seat r'
                         = Some (n - bought pk)
            | None, None => True
            | _, _ => False
            end
  | inl e, inl e' => e = e'
  | _, _ => False
  end.
Proof.
  intros [-> Hcreate]%order_create_inv bought.
  pose proof (create_tickets_frame _ _ _ _ Hcreate) as (Ha & Hf & _).
  simpl in Ha, Hf.
  assert (FlightViewSet.queryset db' = FlightViewSet.queryset db) as Hbase
    by (unfold FlightViewSet.queryset; by rewrite Ha, Hf).
  assert (∀ pk, Count_tickets db' pk = Count_tickets db pk + bought pk)
    as Hcount.
  { intros pk. by rewrite (create_tickets_count _ _ _ _ pk Hcreate). }
  unfold FlightViewSet.get_queryset. rewrite Hbase.
  destruct (truthy (q !! "route"%string)) as [rp|]; simpl;
    [destruct (params_to_ints rp) as [e|ids]; simpl; [done|]|];
    (destruct (truthy (q !! "departure_time"%string)) as [v|]; simpl;
     [destruct (strptime_Ymd v) as [d|]; simpl; [|done]|]);
    intros pk; unfold FlightViewSet.annotate;
    rewrite !map_lookup_imap;
    (destruct (_ !! pk) as [r|]; simpl; [|done]);
    (split; [done|]; split; [done|]);
    eexists; (split; [reflexivity|]); f_equal; rewrite Hcount; lia.
Qed.

Lemma purchase_lowers_free_seats_witness :
  let after := (OrderViewSet.create (Account Sample.customer)
                  Sample.good_order (Sample.at_ 2024 2 3 8)
                  Sample.airport_db).2 in
  match FlightViewSet.get_queryset list_ ∅ Sample.airport_db,
        FlightViewSet.get_queryset list_ ∅ after with
  | inr qs, inr qs' =>
      (FlightViewSet.free_tickets_seat <$> qs !! 5) = Some (Some 5)
      ∧ (FlightViewSet.free_tickets_seat <$> qs' !! 5) = Some (Some 3)
  | _, _ => False
  end.
Proof.
  intros after.
  assert (OrderViewSet.create (Account Sample.customer) Sample.good_order
            (Sample.at_ 2024 2 3 8) Sample.airport_db
          = (Reply HTTP_201_CREATED (Data 3), after)) as Hc
    by (vm_compute; reflexivity).
  pose proof (purchase_lowers_free_seats _ _ _ _ _ _ ∅ Hc) as H.
  simpl in H.
  destruct (FlightViewSet.get_queryset list_ ∅ Sample.airport_db)
    as [|qs] eqn:E1; [done|].
  destruct (FlightViewSet.get_queryset list_ ∅ after) as [|qs'] eqn:E2;
    [done|].
  specialize (H 5).
  assert (qs !! 5 = Some
            {| FlightViewSet.flight_of :=
                 {| route := 1; airplane := 1;
                    departure_time := Sample.at_ 2024 3 1 9;
                    arrival_time := Sample.at_ 2024 3 1 12; crew := ∅ |};
               FlightViewSet.airplane_of :=
                 {| airplane_name := "A320"; rows := 2; seats_in_row := 3;
                    airplane_type := 1 |};
               FlightViewSet.free_tickets_seat := Some 5 |}) as Hrow.
  { vm_compute in E1. simplify_eq. vm_compute. reflexivity. }
  rewrite Hrow in H. rewrite Hrow. simpl.
  destruct (qs' !! 5) as [r'|]; [|done].
  destruct H as (_ & _ & n & Hn & Hn'). simpl in Hn. simplify_eq.
  split; [done|]. simpl. rewrite Hn'. reflexivity.
Defined.

Lemma ticket_valid_true db t :
  Spec.ticket_valid db t = true →
  ∃ f a, flights db !! flight_id t = Some f
         ∧ airplanes db !! airplane f = Some a
         ∧ 1 ≤ row_data t ≤ rows a ∧ 1 ≤ seat_data t ≤ seats_in_row a
         ∧ ∀ k tk, tickets db !! k = Some tk →
                   Spec.slot t ≠ (flight tk, row tk, seat tk).
Proof.
  unfold Spec.ticket_valid.
  destruct (flights db !! flight_id t) as [f|]; [|done].
  destruct (airplanes db !! airplane f) as [a|] eqn:Ha; [|done].
  rewrite !andb_true_iff, !bool_decide_eq_true.
  intros [[[? ?] [? ?]] Hfree]. exists f, a. repeat split; done.
Qed.

Lemma insert_ticket_consistent db order_pk t :
  Consistency.seats_consistent db → Spec.ticket_valid db t = true →
  Consistency.seats_consistent
    (insert_ticket {| row := row_data t; seat := seat_data t;
                      flight := flight_id t; order := order_pk |} db).
Proof.
  intros [Hin Huniq] (f & a & Hf & Ha & Hr & Hs & Hfree)%ticket_valid_true.
  pose proof (next_pk_fresh (tickets db)) as Hfresh.
  split; simpl.
  - intros k tk Hk.
    destruct (decide (next_pk (tickets db) = k)) as [<-|Hne].
    + rewrite lookup_insert_eq in Hk. simplify_eq. simpl. eauto 10.
    + rewrite lookup_insert_ne in Hk by done. eauto.
  - intros k k' tk tk' Hk Hk' E1 E2 E3.
    destruct (decide (next_pk (tickets db) = k)) as [<-|Hne];
      destruct (decide (next_pk (tickets db) = k')) as [<-|Hne'];
      [reflexivity|..].
    + rewrite lookup_insert_eq in Hk. rewrite lookup_insert_ne in Hk' by done.
      simplify_eq. simpl in *. destruct (Hfree k' tk' Hk').
      unfold Spec.slot. congruence.
    + rewrite lookup_insert_eq in Hk'. rewrite lookup_insert_ne in Hk by done.
      simplify_eq. simpl in *. destruct (Hfree k tk Hk).
      unfold Spec.slot. congruence.
    + rewrite lookup_insert_ne in Hk, Hk' by done. eauto.
Qed.

Lemma create_tickets_consistent order_pk ts db db' :
  Consistency.seats_consistent db →
  create_tickets order_pk ts db = inr db' →
  Consistency.seats_consistent db'.
Proof.
  revert db. induction ts as [|t ts IH]; intros db Hc H; simpl in H.
  - unfold mret, raises_ret in H. by simplify_eq.
  - pose proof (validate_ticket_valid db t) as Hv.
    destruct (Spec.ticket_valid db t) eqn:Ht.
    + rewrite Hv in H. simpl in H. eapply IH; [|exact H].
      by apply insert_ticket_consistent.
    + destruct Hv as [field Hv]. by rewrite Hv in H.
Qed.

(** Order creation keeps the ticket table consistent: whoever asks and
    whatever the payload, if before the request every ticket lies within
    its airplane and no seat of a flight is sold twice, the same holds
    after it. *)
Theorem order_creation_keeps_consistency (who : Principal) (data : Payload)
  (now : DateTime) (db : DB) :
  Consistency.seats_consistent db →
  Consistency.seats_consistent (OrderViewSet.create who data now db).2.
Proof.
  intros Hc. unfold OrderViewSet.create, dispatch.
  destruct (check_permissions _ _ _); [|done].
  destruct who as [|u]; [done|]. simpl.
  unfold save, atomic, OrderSerializer.create. simpl.
  destruct (create_tickets _ _ _) as [e|db'] eqn:E; simpl; [done|].
  eapply create_tickets_consistent; [|exact E].
  destruct Hc as [Hin Huniq]. split; simpl; eauto.
Qed.

Lemma sample_airport_db_consistent :
  Consistency.seats_consistent Sample.airport_db.
Proof.
  assert (∀ k t, Airport.tickets Sample.airport_db !! k = Some t →
            k = 1 ∧ t = {| row := 1; seat := 1; flight := 5; order := 1 |})
    as Hone.
  { intros k t Hk. unfold Sample.airport_db in Hk. simpl in Hk.
    apply lookup_singleton_Some in Hk as [<- <-]. done. }
  split.
  - intros k t [-> ->]%Hone. simpl. eexists _, _.
    split; [reflexivity|]. split; [reflexivity|]. simpl. lia.
  - intros k k' t t' [-> _]%Hone [-> _]%Hone. done.
Qed.

Lemma order_creation_keeps_consistency_witness :
  Consistency.seats_consistent
    (OrderViewSet.create (Account Sample.customer) Sample.good_order
       (Sample.at_ 2024 2 3 8) Sample.airport_db).2.
Proof.
  apply order_creation_keeps_consistency, sample_airport_db_consistent.
Defined.


Lemma tickets_of_other_order pk ts (old new : gmap Z Ticket) (i : Z) :
  Spec.tickets_persisted pk ts old new → i ≠ pk →
  filter (λ kt, order kt.2 = i) new = filter (λ kt, order kt.2 = i) old.
Proof.
  intros (Hkeep & _ & Honly & _) Hi. apply map_eq. intros k.
  apply option_eq. intros tk. rewrite !map_lookup_filter_Some. simpl.
  split.
  - intros [Hk Ho]. split; [|done].
    destruct (Honly k tk Hk) as [|(t & _ & ->)]; [done|]. by simpl in Ho.
  - intros [Hk Ho]. split; [by apply Hkeep|done].
Qed.



(** Order creation by one user changes nothing of what another user is
    shown: the list of the other user, rows and tickets, is the same
    before and after the request, whether it succeeds or fails. *)
Theorem order_creation_noninterference (u v : User) (data : Payload)
  (now : DateTime) (db : DB) :
  id v ≠ id u →
  (OrderViewSet.list (Account v)
     (OrderViewSet.create (Account u) data now db).2).1
  = (OrderViewSet.list (Account v) db).1.
Proof.
  intros Hv.
  destruct (OrderViewSet.create (Account u) data now db) as [reply db']
    eqn:Hc.
  pose proof (order_create_outcome u data now db) as H.
  destruct (Spec.request_valid db (tickets_data data)).
  - destruct H as (pk & db'' & Hc' & Hnew & Ho & _ & _ & Hp).
    rewrite Hc' in Hc. simplify_eq. simpl.
    unfold OrderViewSet.list, dispatch. simpl. do 2 f_equal.
    apply map_eq. intros i. apply option_eq. intros r.
    rewrite !(order_get_queryset_lookup v _ _ i r eq_refl).
    rewrite Ho. split.
    + intros (o & Hi & Hu & ->).
      destruct (decide (pk = i)) as [<-|Hne].
      * rewrite lookup_insert_eq in Hi. by simplify_eq.
      * rewrite lookup_insert_ne in Hi by done.
        exists o. split; [done|]. split; [done|].
        by rewrite (tickets_of_other_order _ _ _ _ i Hp).
    + intros (o & Hi & Hu & ->).
      assert (pk ≠ i) as Hne by (intros <-; congruence).
      exists o. rewrite lookup_insert_ne by done. split; [done|].
      split; [done|].
      by rewrite (tickets_of_other_order _ _ _ _ i Hp).
  - destruct H as (field & Hc'). rewrite Hc' in Hc. by simplify_eq.
Qed.

Lemma order_creation_noninterference_witness :
  (OrderViewSet.list (Account Sample.other_customer)
     (OrderViewSet.create (Account Sample.customer) Sample.good_order
        (Sample.at_ 2024 2 3 8) Sample.airport_db).2).1
  = (OrderViewSet.list (Account Sample.other_customer)
       Sample.airport_db).1.
Proof. apply order_creation_noninterference. discriminate. Defined.
End bookings.

Section airports.
Import Rest Py Text Routes.
Import AirportViewSet (Row, airport_of, city_of, country_of, joined,
  queryset, get_queryset).

Lemma starts_with_spec (p s : list ascii) :
  starts_with p s = true ↔ ∃ post, s = p ++ post.
Proof.
  revert s. induction p as [|c p IH]; intros s; simpl.
  - split; [eauto|done].
  - destruct s as [|d s].
    + split; [done|]. by intros [post ?].
    + rewrite andb_true_iff, bool_decide_eq_true, IH. split.
      * intros [-> [post ->]]. eauto.
      * intros [post [= -> ->]]. eauto.
Qed.

Lemma contains_spec (needle hay : list ascii) :
  contains needle hay = true ↔ ∃ pre post, hay = pre ++ needle ++ post.
Proof.
  induction hay as [|d hay IH]; simpl.
  - rewrite orb_false_r, starts_with_spec. split.
    + intros [post ->]. by exists [], post.
    + intros (pre & post & H). symmetry in H.
      apply app_eq_nil in H as [-> H]. apply app_eq_nil in H as [-> ->].
      by exists [].
  - rewrite orb_true_iff, starts_with_spec, IH. split.
    + intros [[post ->] | (pre & post & ->)].
      * by exists [], post.
      * by exists (d :: pre), post.
    + intros (pre & post & H). destruct pre as [|c pre]; simpl in H.
      * left. eauto.
      * right. injection H as -> ->. eauto.
Qed.

Lemma contains_trans (a b c : list ascii) :
  contains a b = true → contains b c = true → contains a c = true.
Proof.
  rewrite !contains_spec.
  intros (p1 & q1 & ->) (p2 & q2 & ->).
  exists (p2 ++ p1), (q1 ++ q2). by rewrite <- !app_assoc.
Qed.

Lemma icontains_trans (value p2 p1 : string) :
  icontains value p2 = true → icontains p2 p1 = true →
  icontains value p1 = true.
Proof. unfold icontains. intros H1 H2. by eapply contains_trans. Qed.

Lemma lower_upper (c : ascii) : lower (upper c) = lower c.
Proof. destruct c as [[] [] [] [] [] [] [] []]; reflexivity. Qed.

Lemma icontains_to_upper (value pattern : string) :
  icontains value (to_upper pattern) = icontains value pattern.
Proof.
  unfold icontains, to_upper. rewrite list_ascii_of_string_of_list_ascii.
  f_equal. rewrite <- list_fmap_compose. apply list_fmap_ext.
  intros i c _. apply lower_upper.
Qed.

Lemma truthy_to_upper (v : option string) :
  Airport.truthy (to_upper <$> v) = to_upper <$> Airport.truthy v.
Proof.
  destruct v as [s|]; [|done]. simpl.
  destruct s as [|c s]; [done|]. done.
Qed.

Lemma queryset_joined db pk r :
  queryset db !! pk = Some r ↔
  ∃ a, airports db !! pk = Some a ∧ joined db a = Some r.
Proof.
  unfold queryset. rewrite lookup_omap_Some.
  split; intros (a & H1 & H2); eauto.
Qed.

Lemma optional_icontains_lookup (v : option string) (g : Row → string)
  (m : gmap Z Row) (pk : Z) (r : Row) :
  match Airport.truthy v with
  | Some p => filter (λ kr, icontains (g kr.2) p = true) m
  | None => m
  end !! pk = Some r
  ↔ m !! pk = Some r
    ∧ ∀ p, v = Some p → p ≠ EmptyString → icontains (g r) p = true.
Proof.
  destruct v as [p|]; simpl.
  - case_bool_decide as Hp.
    + subst. split; [|by intros [? _]]. intros H. split; [done|].
      by intros p [= <-].
    + rewrite map_lookup_filter_Some. simpl. split.
      * intros [Hm Hi]. split; [done|]. by intros p' [= <-] _.
      * intros [Hm Hi]. split; [done|]. by apply Hi.
  - split; [|by intros [? _]]. intros H. split; [done|]. done.
Qed.

(** The two airport filters act together and never fail: the airports
    returned are exactly the airports of the store, joined with city and
    country, whose name contains [airport_name] and whose city name
    contains [city], letter case apart; a parameter left out or left
    empty holds of every airport. *)
Theorem airport_filters_conjunction (q : gmap string string) (db : DB)
  (pk : Z) (r : Row) :
  get_queryset q db !! pk = Some r ↔
  (∃ a, airports db !! pk = Some a ∧ joined db a = Some r)
  ∧ (∀ p, q !! "airport_name"%string = Some p → p ≠ EmptyString →
          icontains (name (airport_of r)) p = true)
  ∧ (∀ p, q !! "city"%string = Some p → p ≠ EmptyString →
          icontains (Airport.city_name (city_of r)) p = true).
Proof.
  unfold get_queryset. rewrite <- queryset_joined.
  pose proof (optional_icontains_lookup (q !! "city"%string)
                (λ r, Airport.city_name (city_of r))) as Hcity.
  pose proof (optional_icontains_lookup (q !! "airport_name"%string)
                (λ r, name (airport_of r))) as Hname.
  simpl in Hcity, Hname. rewrite Hcity, Hname. tauto.
Qed.

Lemma to_upper_empty (s : string) :
  to_upper s = EmptyString ↔ s = EmptyString.
Proof. by destruct s. Qed.

Lemma upper_condition (v : option string) (value : string) :
  (∀ p, to_upper <$> v = Some p → p ≠ EmptyString →
        icontains value p = true)
  ↔ (∀ p, v = Some p → p ≠ EmptyString → icontains value p = true).
Proof.
  destruct v as [s|]; simpl; [|by split; intros _ p [=]].
  split.
  - intros H p [= <-] Hp. rewrite <- icontains_to_upper. apply H; [done|].
    by rewrite to_upper_empty.
  - intros H p [= <-] Hp. rewrite icontains_to_upper. apply H; [done|].
    by rewrite to_upper_empty in Hp.
Qed.

(** Letter case of the parameters does not matter: writing every value in
    capitals returns the same airports. *)
Theorem airport_filters_ignore_case (q : gmap string string) (db : DB) :
  get_queryset (to_upper <$> q) db = get_queryset q db.
Proof.
  apply map_eq. intros pk. apply option_eq. intros r.
  unfold get_queryset. rewrite !lookup_fmap.
  pose proof (λ v, optional_icontains_lookup v
                     (λ r, Airport.city_name (city_of r))) as Hcity.
  pose proof (λ v, optional_icontains_lookup v
                     (λ r, name (airport_of r))) as Hname.
  simpl in Hcity, Hname. rewrite !Hcity, !Hname, !upper_condition. done.
Qed.

(** A longer pattern narrows the result: if the value given for
    [airport_name] contains another pattern, letter case apart, every
    airport returned is also returned for that other pattern. *)
Theorem airport_name_narrows (q : gmap string string) (db : DB)
  (longer shorter : string) :
  q !! "airport_name"%string = Some longer →
  icontains longer shorter = true →
  get_queryset q db
  ⊆ get_queryset (<["airport_name"%string := shorter]> q) db.
Proof.
  intros Hq Hsub. apply map_subseteq_spec. intros pk r.
  unfold get_queryset.
  rewrite lookup_insert_eq.
  rewrite (lookup_insert_ne
             (M:=gmap string) q "airport_name"%string "city"%string)
    by done.
  pose proof (λ v, optional_icontains_lookup v
                     (λ r, Airport.city_name (city_of r))) as Hcity.
  pose proof (λ v, optional_icontains_lookup v
                     (λ r, name (airport_of r))) as Hname.
  simpl in Hcity, Hname. rewrite !Hcity, !Hname, Hq.
  intros [[Hbase Hn] Hc]. split; [split; [done|]|done].
  intros p [= <-] Hp.
  destruct (decide (longer = EmptyString)) as [->|Hl].
  - destruct shorter; [done|]. by vm_compute in Hsub.
  - eapply icontains_trans; [|exact Hsub]. by apply Hn.
Qed.

Lemma airport_name_narrows_witness :
  let q : gmap string string :=
    {[ "airport_name"%string := "Heathrow"%string ]} in
  get_queryset q RouteSample.geo_db
  ⊆ get_queryset (<["airport_name"%string := "ROW"%string]> q)
      RouteSample.geo_db.
Proof.
  intros q.
  apply (airport_name_narrows q RouteSample.geo_db "Heathrow" "ROW");
    reflexivity.
Defined.
End airports.

Section routes.
Import Rest Py Text Routes.
Import RouteViewSet (Row, route_of, source_of, destination_of, joined,
  queryset, get_queryset).

Lemma route_queryset_joined db pk r :
  queryset db !! pk = Some r ↔
  ∃ x, routes db !! pk = Some x ∧ joined db x = Some r.
Proof.
  unfold queryset. rewrite lookup_omap_Some.
  split; intros (a & H1 & H2); eauto.
Qed.

Lemma joined_route_of db x r : joined db x = Some r → route_of r = x.
Proof.
  unfold joined. intros H.
  destruct (airports db !! source x ≫= AirportViewSet.joined db); [|done].
  destruct (airports db !! destination x ≫= AirportViewSet.joined db);
    [|done].
  by simplify_eq/=.
Qed.

(** The two route filters act together: when both parameters parse, the
    routes returned are exactly the routes of the store, joined with their
    airports, whose source is among the ids of [source] and whose
    destination is among the ids of [destination], a parameter left out or
    left empty holding of every route; the request raises, always
    [ValueError], exactly when a non-empty parameter does not parse. *)
Theorem route_filters_conjunction (q : gmap string string) (db : DB) :
  let sources :=
    Airport.params_to_ints <$> Airport.truthy (q !! "source"%string) in
  let destinations :=
    Airport.params_to_ints
      <$> Airport.truthy (q !! "destination"%string) in
  match get_queryset q db with
  | inr qs =>
      (∀ e, sources ≠ Some (inl e)) ∧ (∀ e, destinations ≠ Some (inl e))
      ∧ ∀ pk r, qs !! pk = Some r ↔
          (∃ x, routes db !! pk = Some x ∧ joined db x = Some r)
          ∧ (∀ ids, sources = Some (inr ids) → source (route_of r) ∈ ids)
          ∧ (∀ ids, destinations = Some (inr ids) →
                    destination (route_of r) ∈ ids)
  | inl e =>
      e = ValueError
      ∧ ((∃ e', sources = Some (inl e'))
         ∨ (∃ e', destinations = Some (inl e')))
  end.
Proof.
  intros sources destinations. unfold sources, destinations, get_queryset.
  assert (∀ s e, Airport.params_to_ints s = inl e → e = ValueError) as Herr.
  { intros s e H. unfold Airport.params_to_ints in H.
    by destruct (mapM int _); simplify_eq. }
  destruct (Airport.truthy (q !! "source"%string)) as [sp|]; simpl;
    [destruct (Airport.params_to_ints sp) as [e|ids] eqn:Hs; simpl|].
  - split; [by eapply Herr|]. left. eauto.
  - destruct (Airport.truthy (q !! "destination"%string)) as [dp|]; simpl;
      [destruct (Airport.params_to_ints dp) as [e|ids'] eqn:Hd; simpl|].
    + split; [by eapply Herr|]. right. eauto.
    + split; [done|]. split; [done|]. intros pk r.
      rewrite !map_lookup_filter_Some, route_queryset_joined. simpl.
      split.
      * intros [[Hb Hsrc] Hdst]. split; [done|].
        split; intros ? [= <-]; done.
      * intros (Hb & Hsrc & Hdst). split; [split; [done|]|]; eauto.
    + split; [done|]. split; [done|]. intros pk r.
      rewrite !map_lookup_filter_Some, route_queryset_joined. simpl.
      split.
      * intros [Hb Hsrc]. split; [done|].
        split; [intros ? [= <-]; done | intros ? [=]].
      * intros (Hb & Hsrc & Hdst). split; [done|]; eauto.
  - destruct (Airport.truthy (q !! "destination"%string)) as [dp|]; simpl;
      [destruct (Airport.params_to_ints dp) as [e|ids'] eqn:Hd; simpl|].
    + split; [by eapply Herr|]. right. eauto.
    + split; [done|]. split; [done|]. intros pk r.
      rewrite !map_lookup_filter_Some, route_queryset_joined. simpl.
      split.
      * intros [Hb Hdst]. split; [done|].
        split; [intros ? [=] | intros ? [= <-]; done].
      * intros (Hb & Hsrc & Hdst). split; [done|]; eauto.
    + split; [done|]. split; [done|]. intros pk r.
      rewrite route_queryset_joined. split.
      * intros Hb. split; [done|]. split; intros ? [=].
      * by intros (Hb & _).
Qed.

(** Only the set of ids matters: two values of [source] that parse to
    lists with the same members, in whatever order and however often
    repeated, return the same routes. *)
Theorem route_source_ids_as_set (q : gmap string string) (db : DB)
  (s s' : string) (ids ids' : list Z) :
  Airport.params_to_ints s = inr ids →
  Airport.params_to_ints s' = inr ids' →
  (∀ i, i ∈ ids ↔ i ∈ ids') →
  get_queryset (<["source"%string := s]> q) db
  = get_queryset (<["source"%string := s']> q) db.
Proof.
  intros Hs Hs' Hsame.
  assert (∀ x ys, Airport.params_to_ints x = inr ys → x ≠ EmptyString)
    as Hne by (by intros x ys H ->).
  unfold get_queryset. rewrite !lookup_insert_eq.
  rewrite !(lookup_insert_ne (M:=gmap string) q
              "source"%string "destination"%string) by done.
  assert (∀ x, x ≠ EmptyString → Airport.truthy (Some x) = Some x) as Ht.
  { intros x Hx. unfold Airport.truthy. by rewrite bool_decide_eq_false_2. }
  rewrite !Ht by eauto. simpl. rewrite Hs, Hs'. simpl.
  assert (filter (λ kr : Z * Row, source (route_of kr.2) ∈ ids) (queryset db)
          = filter (λ kr : Z * Row, source (route_of kr.2) ∈ ids')
              (queryset db)) as ->; [|done].
  apply map_filter_ext. intros i x _. simpl. apply Hsame.
Qed.

Lemma route_source_ids_as_set_witness :
  get_queryset {[ "source"%string := "1,3"%string ]} RouteSample.geo_db
  = get_queryset {[ "source"%string := " 3 ,1,3"%string ]}
      RouteSample.geo_db.
Proof.
  apply (route_source_ids_as_set ∅ RouteSample.geo_db "1,3" " 3 ,1,3"
           [1; 3] [3; 1; 3]); [reflexivity | reflexivity |].
  intros i. rewrite !elem_of_cons, !elem_of_nil. tauto.
Defined.
End routes.

Section pages.
Import Rest Py Routes.
Import PaginationClass.

(** The page size is always between 1 and 100: it is 5 when the parameter
    is missing, does not parse or is not positive, and otherwise the
    number asked for, cut off at 100. *)
Theorem page_size_bounds (q : gmap string string) :
  1 ≤ get_page_size q ≤ 100
  ∧ (q !! "page_size"%string = None → get_page_size q = 5)
  ∧ (∀ s, q !! "page_size"%string = Some s →
       get_page_size q
       = match int s with
         | Some n => if 0 <? n then Z.min n 100 else 5
         | None => 5
         end).
Proof.
  unfold get_page_size, page_size_query_param, positive_int, page_size,
    max_page_size.
  destruct (q !! "page_size"%string) as [s|]; simpl.
  - assert (match int s with
            | Some n => if 0 <? n then Z.min n 100 else 5
            | None => 5
            end
            = match int s ≫= (λ ret,
                      if (ret <? 0) || (ret =? 0) && true then None
                      else Some (Z.min ret 100)) with
              | Some n => n
              | None => 5
              end) as E.
    { destruct (int s) as [n|]; simpl; [|done].
      destruct (Z.ltb_spec n 0), (Z.eqb_spec n 0), (Z.ltb_spec 0 n);
        simpl; (done || lia). }
    split; [|split; [done|by intros s' [= <-]]].
    rewrite <- E. destruct (int s) as [n|]; [|lia].
    destruct (Z.ltb_spec 0 n); lia.
  - split; [lia|]. split; [done|]. by intros s' [=].
Qed.

Lemma get_page_size_positive (q : gmap string string) :
  1 ≤ get_page_size q.
Proof.
  unfold get_page_size, page_size_query_param, positive_int, page_size,
    max_page_size.
  destruct (q !! "page_size"%string) as [s|]; simpl; [|lia].
  destruct (int s) as [n|]; simpl; [|lia].
  destruct (Z.ltb_spec n 0), (Z.eqb_spec n 0); simpl; lia.
Qed.

Lemma chunks_take {A} (l : list A) (P k : nat) :
  mjoin ((λ n, take P (drop ((n - 1) * P) l)) <$> seq 1 k)
  = take (k * P) l.
Proof.
  induction k as [|k IH]; [done|].
  rewrite seq_S, fmap_app, join_app, IH. simpl.
  rewrite app_nil_r.
  replace (k - 0)%nat with k by lia.
  rewrite take_take_drop. f_equal. lia.
Qed.

Lemma num_pages_covers (count per_page : Z) :
  0 ≤ count → 1 ≤ per_page →
  1 ≤ num_pages count per_page
  ∧ count ≤ num_pages count per_page * per_page
  ∧ (0 < count → (num_pages count per_page - 1) * per_page < count).
Proof.
  intros Hc Hp. unfold num_pages.
  assert (Z.max 1 count = 1 ∧ count = 0 ∨ Z.max 1 count = count ∧ 0 < count)
    as [[-> ->] | [-> Hpos]] by lia.
  - assert ((1 + per_page - 1) / per_page = 1) as ->
      by (replace (1 + per_page - 1) with (1 * per_page) by lia;
          apply Z.div_mul; lia).
    lia.
  - pose proof (Z.div_mod (count + per_page - 1) per_page ltac:(lia)) as E.
    pose proof (Z.mod_pos_bound (count + per_page - 1) per_page ltac:(lia)).
    split; [|split; [|intros _]]; nia.
Qed.

(** With the page size of the class, the pages cut the object list into
    consecutive pieces: the pages 1 to [num_pages] put together are the
    list, a page holds at most the page size of items and at least one
    unless the list is empty, and every other page number is not
    found. *)
Theorem pages_partition {A} (q : gmap string string) (l : list A) :
  let per_page := get_page_size q in
  let last := num_pages (Z.of_nat (List.length l)) per_page in
  1 ≤ last
  ∧ mjoin ((λ n, match page l per_page (Z.of_nat n) with
                 | inr items => items
                 | inl _ => []
                 end) <$> seq 1 (Z.to_nat last)) = l
  ∧ (∀ n, page l per_page n = inl Http404 ↔ n < 1 ∨ last < n)
  ∧ (∀ n items, page l per_page n = inr items →
       Z.of_nat (List.length items) ≤ per_page
       ∧ (l ≠ [] → items ≠ [])).
Proof.
  intros per_page last.
  pose proof (get_page_size_positive q) as Hp. fold per_page in Hp.
  destruct (num_pages_covers (Z.of_nat (List.length l)) per_page)
    as (Hlast & Hcover & Htight); [lia|done|]. fold last in Hlast, Hcover, Htight.
  assert (∀ n, page l per_page n
               = if (n <? 1) || (last <? n) then inl Http404
                 else inr (take (Z.to_nat per_page)
                             (drop (Z.to_nat ((n - 1) * per_page)) l)))
    as Hpage by done.
  split; [done|]. split; [|split].
  - assert ((λ n, match page l per_page (Z.of_nat n) with
                  | inr items => items
                  | inl _ => []
                  end) <$> seq 1 (Z.to_nat last)
            = (λ n, take (Z.to_nat per_page)
                      (drop ((n - 1) * Z.to_nat per_page) l))
                <$> seq 1 (Z.to_nat last)) as ->.
    { apply list_fmap_ext. intros i n Hn.
      apply lookup_seq in Hn as [-> Hi]. rewrite Hpage.
      assert ((Z.of_nat (1 + i) <? 1) || (last <? Z.of_nat (1 + i)) = false)
        as -> by (apply orb_false_iff; split; apply Z.ltb_ge; lia).
      do 2 f_equal. nia. }
    rewrite chunks_take. apply take_ge. nia.
  - intros n. rewrite Hpage.
    destruct (Z.ltb_spec n 1), (Z.ltb_spec last n); simpl;
      split; (done || lia || (intros; lia) || auto).
  - intros n items. rewrite Hpage.
    destruct (Z.ltb_spec n 1), (Z.ltb_spec last n); simpl; try done.
    intros [= <-]. rewrite length_take. split; [lia|].
    intros Hl. assert (0 < List.length l)%nat by (destruct l; simpl; [done|lia]).
    assert (Z.to_nat ((n - 1) * per_page) < List.length l)%nat by nia.
    intros Hnil. apply (f_equal List.length) in Hnil.
    rewrite length_take, length_drop in Hnil. simpl in Hnil. lia.
Qed.

Lemma pages_partition_witness :
  page [1; 2; 3; 4; 5; 6; 7] (get_page_size ∅) 2 = inr [6; 7]
  ∧ page [1; 2; 3; 4; 5; 6; 7] (get_page_size ∅) 3 = inl Http404.
Proof.
  split; [reflexivity|].
  apply (pages_partition ∅ [1; 2; 3; 4; 5; 6; 7]). right. reflexivity.
Defined.
End pages.

Section more_chat.
Import Rest Py Chat.
Import ChatSupportViewSet (permission_classes, queryset, get_queryset,
  get_object, get_message, set_user_list, create_message, update_message,
  delete_message, connect_support_to_chat, disconnect_user_from_chat).

Lemma chat_list_staff_witness :
  ∃ qs, ChatSupportViewSet.list (Account Sample.operator) Sample.chat_db
        = (Reply HTTP_200_OK (Data qs), Sample.chat_db)
        ∧ is_Some (qs !! 2) ∧ qs !! 1 = None ∧ qs !! 3 = None.
Proof.
  destruct (chat_list_staff (Account Sample.operator) Sample.chat_db
              eq_refl) as (qs & Hl & Hqs).
  exists qs. split; [exact Hl|]. split; [|split].
  - eexists. apply Hqs. by vm_compute.
  - destruct (qs !! 1) as [c|] eqn:E; [|done].
    apply Hqs in E as (E & _ & Hs). vm_compute in E. by simplify_eq.
  - destruct (qs !! 3) as [c|] eqn:E; [|done].
    apply Hqs in E as (E & He & _). vm_compute in E. by simplify_eq.
Defined.

Lemma message_mutation_staff_witness :
  delete_message (Account Sample.operator) 1 8 Sample.chat_db
    = (Raise Http404, Sample.chat_db)
  ∧ (messages (delete_message (Account Sample.operator) 2 7
                 Sample.chat_db).2) !! 7 = None.
Proof.
  split.
  - eapply (message_mutation_staff Sample.operator 1 8
              (Sample.says "x" 1) Sample.chat_db);
      [reflexivity | reflexivity | discriminate].
  - edestruct (message_mutation_staff Sample.operator 2 7
                 (Sample.says "x" 2) Sample.chat_db) as [_ Hown];
      [reflexivity | reflexivity |].
    destruct (Hown eq_refl) as [-> _]. simpl. apply lookup_delete_eq.
Defined.

(** To a caller who is not staff the chat viewset is closed: each of its
    nine actions answers with the refusal and leaves the store as it
    was. *)
Theorem chat_closed_to_non_staff (who : Principal) (pk message_pk : Z)
  (data : MessageData) (now : DateTime)
  (serializer : ChatSupport → option ChatSupport)
  (on_delete : Z → gmap Z ChatMessage → gmap Z ChatMessage) (db : DB) :
  staff who = false →
  ChatSupportViewSet.list who db = (Raise (permission_denied who), db)
  ∧ ChatSupportViewSet.retrieve who pk db
    = (Raise (permission_denied who), db)
  ∧ ChatSupportViewSet.update serializer who pk db
    = (Raise (permission_denied who), db)
  ∧ ChatSupportViewSet.destroy on_delete who pk db
    = (Raise (permission_denied who), db)
  ∧ create_message who pk data now db = (Raise (permission_denied who), db)
  ∧ update_message who pk message_pk data db
    = (Raise (permission_denied who), db)
  ∧ delete_message who pk message_pk db
    = (Raise (permission_denied who), db)
  ∧ connect_support_to_chat who pk db = (Raise (permission_denied who), db)
  ∧ disconnect_user_from_chat who pk db
    = (Raise (permission_denied who), db).
Proof.
  intros Hs.
  assert (∀ m, check_permissions [IsAdminUser] m who = false) as Hno
    by (intros m; unfold check_permissions; simpl; by rewrite Hs).
  repeat split; by apply dispatch_refused.
Qed.

Lemma chat_closed_to_non_staff_witness :
  create_message (Account Sample.customer) 1 (Sample.says "hi" 1)
    (Sample.at_ 2024 2 2 8) Sample.chat_db
  = (Raise PermissionDenied, Sample.chat_db).
Proof.
  apply (chat_closed_to_non_staff (Account Sample.customer) 1 0
           (Sample.says "hi" 1) (Sample.at_ 2024 2 2 8)
           (λ c, Some c) (λ _ ms, ms) Sample.chat_db eq_refl).
Defined.

(** A message and its deletion: what a staff caller has created the same
    caller deletes under the key it was stored at, whatever chat the path
    names, and the store is then as it was before the creation; another
    staff caller asking for the deletion gets not-found, and so does a
    second deletion. *)
Theorem message_create_then_delete (u v : User) (pk pk' : Z)
  (data : MessageData) (now : DateTime) (db db1 : DB) (m : ChatMessage) :
  is_staff u = true → is_staff v = true → id v ≠ id u →
  create_message (Account u) pk data now db
    = (Reply HTTP_200_OK (Data m), db1) →
  let key := next_pk (messages db) in
  messages db1 !! key = Some m
  ∧ delete_message (Account v) pk' key db1 = (Raise Http404, db1)
  ∧ delete_message (Account u) pk' key db1
    = (Reply HTTP_204_NO_CONTENT (Detail "Message deleted successfully."),
       db)
  ∧ delete_message (Account u) pk' key db = (Raise Http404, db).
Proof.
  intros Hu Hv Hne Hc key.
  pose proof (next_pk_fresh (messages db)) as Hfresh. fold key in Hfresh.
  assert (db1 = with_messages (<[key := m]> (messages db)) db
          ∧ user m = id u) as [-> Hm].
  { unfold create_message, dispatch in Hc.
    destruct (check_permissions permission_classes POST (Account u));
      [|done].
    destruct (ChatMessageSerializerCreate.is_valid db data) as [|[t c]];
      [done|]. by simplify_eq. }
  assert (messages (with_messages (<[key := m]> (messages db)) db) !! key
          = Some m) as Hkey by (simpl; apply lookup_insert_eq).
  split; [done|].
  unfold delete_message.
  rewrite !dispatch_passed by by rewrite chat_permission_staff.
  rewrite (get_message_stranger v key _ m Hkey) by congruence.
  rewrite (proj2 (get_message_author u key _ m)) by done.
  split; [done|]. split.
  - f_equal. unfold with_messages. simpl.
    rewrite delete_insert_eq, delete_id by done. apply db_eta.
  - unfold get_message, get_object_or_404.
    rewrite map_lookup_filter_None_2; [done|]. by left.
Qed.

Lemma message_create_then_delete_witness :
  let created := create_message (Account Sample.operator) 1
                   (Sample.says "hi" 2) (Sample.at_ 2024 2 2 8)
                   Sample.chat_db in
  (delete_message (Account Sample.operator) 3 9 created.2).2
  = Sample.chat_db.
Proof.
  intros created.
  assert (∃ m, created = (Reply HTTP_200_OK (Data m), created.2)) as [m E]
    by (eexists; vm_compute; reflexivity).
  pose (other := {| id := 21; is_staff := true |}).
  destruct (message_create_then_delete Sample.operator other 1 3
              _ _ _ _ m eq_refl eq_refl ltac:(discriminate) E)
    as (_ & _ & Hdel & _).
  change (next_pk (messages Sample.chat_db)) with 9 in Hdel.
  by rewrite Hdel.
Defined.

Lemma membership_store (who : Principal) (pk : Z) (db : DB)
  (action : Principal → Z → DB → Response () * DB) :
  action = connect_support_to_chat ∨ action = disconnect_user_from_chat →
  (action who pk db).2 = db
  ∨ ∃ u c ul, who = Account u ∧ chats db !! pk = Some c
      ∧ (action who pk db).2 = set_user_list pk c ul db
      ∧ ∀ v, v ≠ id u → v ∈ ul ↔ v ∈ user_list c.
Proof.
  intros Ha.
  destruct (staff who) eqn:Hs.
  2:{ left.
      assert (check_permissions [IsAdminUser] PUT who = false) as Hno
        by (unfold check_permissions; simpl; by rewrite Hs).
      destruct Ha as [-> | ->];
        unfold connect_support_to_chat, disconnect_user_from_chat;
        by rewrite dispatch_refused. }
  destruct who as [|u]; [done|]. simpl in Hs.
  destruct (chats db !! pk) as [c|] eqn:Hc.
  - destruct Ha as [-> | ->].
    + rewrite (connect_outcome u pk db c) by done.
      case_bool_decide; [by left|]. right.
      exists u, c, ({[ id u ]} ∪ user_list c). repeat split; try done;
        set_solver.
    + rewrite (disconnect_outcome u pk db c) by done.
      case_bool_decide; [|by left]. right.
      exists u, c, (user_list c ∖ {[ id u ]}). repeat split; try done;
        set_solver.
  - left. destruct Ha as [-> | ->];
      unfold connect_support_to_chat, disconnect_user_from_chat, dispatch,
        check_permissions, get_object_or_404; simpl; rewrite Hs, Hc; done.
Qed.

(** The two membership actions touch one thing only, the caller's own
    membership of the chat named in the path: whoever calls, no message
    changes, no chat appears or disappears, every other chat is as it was,
    and the chat named keeps its flags, its author and the membership of
    every other user; for a key that names no chat the store is as it was
    and a staff caller is answered not-found. *)
Theorem membership_actions_frame (who : Principal) (pk : Z) (db : DB)
  (action : Principal → Z → DB → Response () * DB) :
  action = connect_support_to_chat ∨ action = disconnect_user_from_chat →
  let after := (action who pk db).2 in
  messages after = messages db
  ∧ dom (chats after) = dom (chats db)
  ∧ (∀ pk', pk' ≠ pk → chats after !! pk' = chats db !! pk')
  ∧ (∀ c, chats db !! pk = Some c →
       ∃ c', chats after !! pk = Some c'
             ∧ enabled c' = enabled c ∧ is_support c' = is_support c
             ∧ author_created c' = author_created c
             ∧ ∀ v, (∀ u, who = Account u → v ≠ id u) →
                    v ∈ user_list c' ↔ v ∈ user_list c)
  ∧ (chats db !! pk = None →
       after = db
       ∧ (staff who = true → (action who pk db).1 = Raise Http404)).
Proof.
  intros Ha after.
  destruct (membership_store who pk db action Ha)
    as [E | (u & c & ul & -> & Hc & E & Hul)]; fold after in E; rewrite E.
  - repeat split; try done.
    + intros c Hc. exists c. by repeat split.
    + intros Hs. destruct who as [|u]; [done|]. simpl in Hs.
      destruct Ha as [-> | ->];
        unfold connect_support_to_chat, disconnect_user_from_chat, dispatch,
          check_permissions, get_object_or_404; simpl; rewrite Hs, H; done.
  - repeat split.
    + unfold set_user_list. simpl. rewrite dom_insert_L.
      apply elem_of_dom_2 in Hc. set_solver.
    + intros pk' Hne. unfold set_user_list. simpl.
      by rewrite lookup_insert_ne.
    + intros c0 Hc0. rewrite set_user_list_lookup. eexists.
      split; [done|]. simpl. assert (c0 = c) as -> by congruence.
      repeat split; try done; apply Hul; by apply (H u).
    + congruence.
    + congruence.
Qed.

Lemma membership_actions_frame_witness :
  let after := (connect_support_to_chat (Account Sample.operator) 2
                  Sample.chat_db).2 in
  messages after = messages Sample.chat_db
  ∧ chats after !! 1 = chats Sample.chat_db !! 1
  ∧ (connect_support_to_chat (Account Sample.operator) 99
       Sample.chat_db).1 = Raise Http404.
Proof.
  intros after.
  destruct (membership_actions_frame (Account Sample.operator) 2
              Sample.chat_db connect_support_to_chat (or_introl eq_refl))
    as (Hm & _ & Hother & _).
  destruct (membership_actions_frame (Account Sample.operator) 99
              Sample.chat_db connect_support_to_chat (or_introl eq_refl))
    as (_ & _ & _ & _ & Hnone).
  split; [exact Hm|]. split; [by apply Hother|].
  apply Hnone; reflexivity.
Defined.

(** Joining or leaving a chat changes no chat list of the staff: after
    either membership action, by whatever caller, a staff viewer is shown
    the same set of chats as before, and retrieve finds a chat for the
    viewer exactly when it did before. *)
Theorem membership_keeps_staff_view (who viewer : Principal) (pk : Z)
  (db : DB) (action : Principal → Z → DB → Response () * DB) :
  action = connect_support_to_chat ∨ action = disconnect_user_from_chat →
  staff viewer = true →
  let after := (action who pk db).2 in
  dom (get_queryset viewer after) = dom (get_queryset viewer db)
  ∧ ∀ pk', get_object viewer pk' after = inl Http404
           ↔ get_object viewer pk' db = inl Http404.
Proof.
  intros Ha Hv after.
  assert (∀ pk', is_Some (get_queryset viewer after !! pk')
                 ↔ is_Some (get_queryset viewer db !! pk')) as Hsame.
  { intros pk'.
    destruct (membership_actions_frame who pk db action Ha)
      as (_ & _ & Hother & Hthis & _). fold after in Hother, Hthis.
    unfold is_Some. split; intros [c Hc];
      apply (get_queryset_staff viewer _ pk' c Hv) in Hc
        as (Hc & He & Hsup).
    - destruct (decide (pk' = pk)) as [-> | Hne].
      + destruct (chats db !! pk) as [c0|] eqn:H0.
        * destruct (Hthis c0 eq_refl) as (c' & Hc' & E1 & E2 & _).
          exists c0. apply get_queryset_staff; [done|].
          assert (c' = c) as -> by congruence.
          split; [done|]. by rewrite <- E1, <- E2.
        * destruct (membership_actions_frame who pk db action Ha)
            as (_ & _ & _ & _ & Hnone).
          destruct (Hnone H0) as [E _]. fold after in E.
          rewrite E in Hc. congruence.
      + exists c. apply get_queryset_staff; [done|].
        by rewrite <- Hother.
    - destruct (decide (pk' = pk)) as [-> | Hne].
      + destruct (Hthis c Hc) as (c' & Hc' & E1 & E2 & _).
        exists c'. apply get_queryset_staff; [done|].
        split; [done|]. by rewrite E1, E2.
      + exists c. apply get_queryset_staff; [done|].
        by rewrite Hother. }
  split.
  - apply set_eq. intros pk'. rewrite !elem_of_dom. apply Hsame.
  - intros pk'. unfold get_object, get_object_or_404.
    specialize (Hsame pk'). unfold is_Some in Hsame.
    destruct (get_queryset viewer after !! pk') eqn:E1;
      destruct (get_queryset viewer db !! pk') eqn:E2; try done.
    + destruct Hsame as [Hs _]. destruct Hs as [? ?]; by eauto.
    + destruct Hsame as [_ Hs]. destruct Hs as [? ?]; by eauto.
Qed.

Lemma membership_keeps_staff_view_witness :
  dom (get_queryset (Account Sample.operator)
         (disconnect_user_from_chat (Account Sample.operator) 2
            Sample.chat_db).2)
  = dom (get_queryset (Account Sample.operator) Sample.chat_db).
Proof.
  apply (membership_keeps_staff_view (Account Sample.operator)
           (Account Sample.operator) 2 Sample.chat_db
           disconnect_user_from_chat (or_intror eq_refl) eq_refl).
Defined.
End more_chat.
